(** * gemini.ts: the validated generative call

    A shallow embedding of [src/gemini.ts]: the seven zod response schemas,
    the Gateway [callGeminiAPI] and the seven feature operations built on it.

    - JavaScript values are the inductive [value]; numbers are IEEE 754
      binary64 floats, objects are association lists in insertion order.
    - The zod combinators the file uses ([z.string], [z.number().min().max()],
      [z.boolean], [z.enum], [z.array], [z.object], [.optional()]) are a small
      schema language [ZodType] with the validator [_parse] (zod 3, default
      "strip" mode for unknown keys).
    - [callGeminiAPI] runs in a state-and-exception monad over a log of the
      network requests issued and of the [console.error] calls; the
      environment and the remote service are a [World].
    - [JSON.parse], [JSON.stringify] and number printing are built-ins of the
      JavaScript runtime: they are variables of the sections below, so every
      theorem holds whatever they compute. A reference runtime (a parser and
      a printer for a fragment of JSON) runs the model on concrete texts. *)

From Stdlib Require Import List String Ascii Bool Arith ZArith Lia DecimalString.
From Stdlib Require Import PrimFloat SpecFloat.
From Stdlib Require FloatOps.
Import ListNotations.
Open Scope string_scope.
Open Scope list_scope.

Set Implicit Arguments.
Set Warnings "-register-all,-inexact-float".

(** ** JavaScript values *)

Unset Elimination Schemes.
Inductive value : Type :=
| VUndefined
| VNull
| VBool (b : bool)
| VNum (n : float)
| VStr (s : string)
| VArr (items : list value)
| VObj (fields : list (string * value)).
Set Elimination Schemes.

(** Structural induction on values, with the hypothesis for every element of
    an array and every field of an object. *)
Definition value_ind (P : value -> Prop)
  (Hu : P VUndefined) (Hn : P VNull) (Hb : forall b, P (VBool b))
  (Hf : forall n, P (VNum n)) (Hs : forall s, P (VStr s))
  (Ha : forall items, Forall P items -> P (VArr items))
  (Ho : forall fields, Forall (fun kv => P (snd kv)) fields -> P (VObj fields))
  : forall v, P v :=
  fix F (v : value) : P v :=
    match v with
    | VUndefined => Hu
    | VNull => Hn
    | VBool b => Hb b
    | VNum n => Hf n
    | VStr s => Hs s
    | VArr items =>
        Ha items ((fix G (l : list value) : Forall P l :=
                     match l with
                     | [] => Forall_nil _
                     | x :: l' => Forall_cons x (F x) (G l')
                     end) items)
    | VObj fields =>
        Ho fields ((fix G (l : list (string * value))
                      : Forall (fun kv => P (snd kv)) l :=
                      match l with
                      | [] => Forall_nil _
                      | kv :: l' =>
                          @Forall_cons _ (fun kv => P (snd kv)) kv l'
                            (F (snd kv)) (G l')
                      end) fields)
    end.

(** Own-property lookup in an object: the first binding of the key. *)
Fixpoint assoc {A : Type} (k : string) (fs : list (string * A)) : option A :=
  match fs with
  | [] => None
  | (k', v) :: rest => if String.eqb k k' then Some v else assoc k rest
  end.

(** [key in obj] for an own property. *)
Definition has_key {A : Type} (k : string) (fs : list (string * A)) : bool :=
  match assoc k fs with Some _ => true | None => false end.

(** [obj[k] = v]: an existing key keeps its position, a new key is appended. *)
Fixpoint set_prop {A : Type} (k : string) (v : A) (fs : list (string * A))
  : list (string * A) :=
  match fs with
  | [] => [(k, v)]
  | (k', v') :: rest =>
      if String.eqb k k' then (k', v) :: rest else (k', v') :: set_prop k v rest
  end.

(** Object spread [{...base, ...extra}]: every own property of [extra], in
    order, is assigned onto a copy of [base]. *)
Definition spread {A : Type} (base extra : list (string * A))
  : list (string * A) :=
  fold_left (fun acc kv => set_prop (fst kv) (snd kv) acc) extra base.

(** [obj[k]] on an object literal: [undefined] when the key is absent. *)
Definition field (k : string) (fs : list (string * value)) : value :=
  match assoc k fs with Some v => v | None => VUndefined end.

(** JavaScript truthiness ([!x] is its negation). *)
Definition truthy (v : value) : bool :=
  match v with
  | VUndefined | VNull => false
  | VBool b => b
  | VNum n => negb (PrimFloat.eqb n 0%float || PrimFloat.is_nan n)
  | VStr s => negb (String.eqb s EmptyString)
  | VArr _ | VObj _ => true
  end.

(** ** The zod fragment used by the schemas *)

(** [ZodParsedType], as [getParsedType] classifies a value. *)
Inductive ZodParsedType : Type :=
| zt_undefined | zt_null | zt_boolean | zt_number | zt_nan | zt_string
| zt_array | zt_object.

Definition getParsedType (v : value) : ZodParsedType :=
  match v with
  | VUndefined => zt_undefined
  | VNull => zt_null
  | VBool _ => zt_boolean
  | VNum n => if PrimFloat.is_nan n then zt_nan else zt_number
  | VStr _ => zt_string
  | VArr _ => zt_array
  | VObj _ => zt_object
  end.

Inductive ZodNumberCheck : Type :=
| check_min (value : float)   (* inclusive *)
| check_max (value : float).  (* inclusive *)

Inductive ZodType : Type :=
| ZodString
| ZodNumber (checks : list ZodNumberCheck)
| ZodBoolean
| ZodEnum (values : list string)
| ZodArray (element : ZodType)
| ZodObject (shape : list (string * ZodType))
| ZodOptional (innerType : ZodType).

Inductive ZodIssueCode : Type :=
| invalid_type (expected : string) (received : ZodParsedType)
| invalid_enum_value (received : string) (options : list string)
| too_small (minimum : float)
| too_big (maximum : float).

Inductive PathElem : Type :=
| at_key (k : string)
| at_index (i : nat).

Record ZodIssue : Type := mkIssue { code : ZodIssueCode; path : list PathElem }.

(** The result of a synchronous [_parse]: the output value, or the issues
    collected (an aborted or dirty status always comes with an issue). *)
Inductive ParseReturn : Type :=
| OK (output : value)
| INVALID (issues : list ZodIssue).

Definition issue_here (c : ZodIssueCode) : ZodIssue := mkIssue c [].

Definition under (p : PathElem) (i : ZodIssue) : ZodIssue :=
  mkIssue (code i) (p :: path i).

Definition issues_of (r : ParseReturn) : list ZodIssue :=
  match r with OK _ => [] | INVALID iss => iss end.

(** The issues one number check adds: [min] fails below the bound, [max]
    above it. *)
Definition run_check (n : float) (c : ZodNumberCheck) : list ZodIssue :=
  match c with
  | check_min m => if PrimFloat.ltb n m then [issue_here (too_small m)] else []
  | check_max m => if PrimFloat.ltb m n then [issue_here (too_big m)] else []
  end.

(** [util.joinValues]: the options of an enumeration, as an issue names
    them. *)
Definition joinValues (values : list string) : string :=
  String.concat " | " (map (fun v => ("'" ++ v ++ "'")%string) values).

Definition finish (issues : list ZodIssue) (output : value) : ParseReturn :=
  match issues with [] => OK output | _ => INVALID issues end.

(** [ZodArray._parse] over the items, from index [i]: every item is parsed,
    issues are gathered under the item's index. *)
Fixpoint parse_items (parse_item : value -> ParseReturn) (i : nat)
  (items : list value) : list ZodIssue * list value :=
  match items with
  | [] => ([], [])
  | x :: rest =>
      let r := parse_item x in
      let '(iss, vs) := parse_items parse_item (S i) rest in
      (map (under (at_index i)) (issues_of r) ++ iss,
       match r with OK v => v :: vs | INVALID _ => vs end)
  end.

(** One key of [ZodObject._parse] enters the output when its value is not
    [undefined] or the key is present in the input ([alwaysSet]). *)
Definition keep_pair (k : string) (fields : list (string * value)) (v : value)
  (out : list (string * value)) : list (string * value) :=
  match v with
  | VUndefined => if has_key k fields then (k, v) :: out else out
  | _ => (k, v) :: out
  end.

(** [ZodObject._parse] over the keys of the shape, in the order of the shape:
    every key is parsed, issues are gathered under the key. *)
Definition parse_pairs (parse_key : ZodType -> value -> ParseReturn)
  (fields : list (string * value))
  : list (string * ZodType) -> list ZodIssue * list (string * value) :=
  fix pairs (sh : list (string * ZodType)) :=
    match sh with
    | [] => ([], [])
    | (k, kt) :: rest =>
        let r := parse_key kt (field k fields) in
        let '(iss, out) := pairs rest in
        (map (under (at_key k)) (issues_of r) ++ iss,
         match r with OK v => keep_pair k fields v out | INVALID _ => out end)
    end.

(** [ZodType._parse]. An object is parsed key by key in the order of its
    shape; a key enters the output when its value is not [undefined] or the
    key is present in the input; keys outside the shape are dropped. *)
Fixpoint _parse (t : ZodType) (input : value) {struct t} : ParseReturn :=
  match t with
  | ZodString =>
      match input with
      | VStr _ => OK input
      | _ => INVALID [issue_here (invalid_type "string" (getParsedType input))]
      end
  | ZodNumber checks =>
      match input with
      | VNum n =>
          if PrimFloat.is_nan n
          then INVALID [issue_here (invalid_type "number" zt_nan)]
          else finish (flat_map (run_check n) checks) input
      | _ => INVALID [issue_here (invalid_type "number" (getParsedType input))]
      end
  | ZodBoolean =>
      match input with
      | VBool _ => OK input
      | _ => INVALID [issue_here (invalid_type "boolean" (getParsedType input))]
      end
  | ZodEnum values =>
      match input with
      | VStr s =>
          if existsb (String.eqb s) values then OK input
          else INVALID [issue_here (invalid_enum_value s values)]
      | _ => INVALID [issue_here (invalid_type (joinValues values)
                                    (getParsedType input))]
      end
  | ZodArray element =>
      match input with
      | VArr items =>
          let '(iss, vs) := parse_items (_parse element) 0 items in
          finish iss (VArr vs)
      | _ => INVALID [issue_here (invalid_type "array" (getParsedType input))]
      end
  | ZodObject shape =>
      match input with
      | VObj fields =>
          let '(iss, out) := parse_pairs _parse fields shape in
          finish iss (VObj out)
      | _ => INVALID [issue_here (invalid_type "object" (getParsedType input))]
      end
  | ZodOptional innerType =>
      match input with
      | VUndefined => OK VUndefined
      | _ => _parse innerType input
      end
  end.

(** Structural induction on schemas, with the hypothesis for every key of an
    object shape. *)
Definition ZodType_nested_ind (P : ZodType -> Prop)
  (Hs : P ZodString) (Hn : forall checks, P (ZodNumber checks))
  (Hb : P ZodBoolean) (He : forall values, P (ZodEnum values))
  (Ha : forall element, P element -> P (ZodArray element))
  (Ho : forall shape, Forall (fun kt => P (snd kt)) shape -> P (ZodObject shape))
  (Hopt : forall innerType, P innerType -> P (ZodOptional innerType))
  : forall t, P t :=
  fix F (t : ZodType) : P t :=
    match t with
    | ZodString => Hs
    | ZodNumber checks => Hn checks
    | ZodBoolean => Hb
    | ZodEnum values => He values
    | ZodArray element => Ha element (F element)
    | ZodObject shape =>
        Ho shape ((fix G (l : list (string * ZodType))
                     : Forall (fun kt => P (snd kt)) l :=
                     match l with
                     | [] => Forall_nil _
                     | kt :: l' =>
                         @Forall_cons _ (fun kt => P (snd kt)) kt l'
                           (F (snd kt)) (G l')
                     end) shape)
    | ZodOptional innerType => Hopt innerType (F innerType)
    end.

(** The builders of zod's API, in the order the source chains them. *)
Module z.
Definition string : ZodType := ZodString.
Definition number : ZodType := ZodNumber [].
Definition boolean : ZodType := ZodBoolean.
Definition enum (values : list String.string) : ZodType := ZodEnum values.
Definition array (element : ZodType) : ZodType := ZodArray element.
Definition object (shape : list (String.string * ZodType)) : ZodType :=
  ZodObject shape.
Definition optional (t : ZodType) : ZodType := ZodOptional t.
Definition add_check (c : ZodNumberCheck) (t : ZodType) : ZodType :=
  match t with
  | ZodNumber checks => ZodNumber (checks ++ [c])
  | _ => t
  end.
Definition min (m : float) (t : ZodType) : ZodType := add_check (check_min m) t.
Definition max (m : float) (t : ZodType) : ZodType := add_check (check_max m) t.
End z.

(** [schema.safeParse(data)]: success exactly when no issue was raised. *)
Definition safeParse (schema : ZodType) (data : value) : ParseReturn :=
  _parse schema data.

(** ** The seven response schemas *)

Definition conflictAnalysisSchema : ZodType :=
  z.object [
    ("hasConflict", z.boolean);
    ("conflictDetails", z.optional z.string);
    ("suggestedSolutions",
      z.optional (z.array (z.object [
        ("description", z.string);
        ("pros", z.array z.string);
        ("cons", z.array z.string)
      ])))
  ].

Definition coworkingRecommendationSchema : ZodType :=
  z.object [
    ("recommendations",
      z.array (z.object [
        ("name", z.string);
        ("location", z.string);
        ("rating", z.optional z.string);
        ("price", z.string);
        ("internetSpeed", z.optional z.string);
        ("amenities", z.array z.string);
        ("matchingCriteria", z.array z.string);
        ("potentialDrawbacks", z.array z.string);
        ("rank", z.max 5 (z.min 1 z.number))
      ]));
    ("recommendationSummary", z.string)
  ].

Definition timeZoneRecommendationSchema : ZodType :=
  z.object [
    ("optimalMeetingTimes",
      z.array (z.object [
        ("startTime", z.string);
        ("endTime", z.string);
        ("impactAssessment",
          z.array (z.object [
            ("location", z.string);
            ("localTime", z.string);
            ("impact", z.enum ["Optimal"; "Acceptable"; "Challenging"])
          ]));
        ("reasoning", z.string)
      ]));
    ("jetlagManagementTips", z.optional (z.array z.string))
  ].

Definition budgetAnalysisSchema : ZodType :=
  z.object [
    ("categorizedExpenses",
      z.array (z.object [
        ("category", z.string);
        ("amount", z.number);
        ("percentage", z.number);
        ("workRelated", z.boolean)
      ]));
    ("comparisonToAverage",
      z.object [
        ("status", z.enum ["Above average"; "Below average"; "Average"]);
        ("details", z.string)
      ]);
    ("recommendations",
      z.array (z.object [
        ("description", z.string);
        ("potentialSavings", z.optional z.number);
        ("implementationDifficulty", z.enum ["Easy"; "Medium"; "Hard"])
      ]))
  ].

Definition communityRecommendationSchema : ZodType :=
  z.object [
    ("recommendations",
      z.array (z.object [
        ("name", z.string);
        ("type", z.string);
        ("relevanceScore", z.max 10 (z.min 1 z.number));
        ("description", z.string);
        ("contactMethod", z.optional z.string);
        ("matchingInterests", z.array z.string);
        ("networkingApproach", z.string)
      ]))
  ].

Definition legalResourceSchema : ZodType :=
  z.object [
    ("visaRequirements",
      z.optional (z.object [
        ("requiredVisa", z.string);
        ("stayDuration", z.string);
        ("applicationProcess", z.string);
        ("requiredDocuments", z.array z.string);
        ("processingTime", z.string);
        ("fees", z.string)
      ]));
    ("taxImplications",
      z.optional (z.object [
        ("taxStatus", z.string);
        ("reportingRequirements", z.string);
        ("treatiesSummary", z.optional z.string);
        ("keyConsiderations", z.array z.string)
      ]));
    ("workLegality",
      z.optional (z.object [
        ("legalStatus", z.string);
        ("restrictions", z.optional (z.array z.string));
        ("permissions", z.optional (z.array z.string))
      ]));
    ("authoritativeSources",
      z.array (z.object [
        ("name", z.string);
        ("url", z.optional z.string);
        ("description", z.string)
      ]));
    ("disclaimer", z.string)
  ].

Definition assistantResponseSchema : ZodType :=
  z.object [
    ("response", z.string);
    ("relatedModules", z.optional (z.array z.string));
    ("suggestedActions", z.optional (z.array z.string))
  ].

(** ** Reading a schema as a contract *)

(** A bound holds when the check raises no issue. *)
Definition check_holds (n : float) (c : ZodNumberCheck) : bool :=
  match c with
  | check_min m => negb (PrimFloat.ltb n m)
  | check_max m => negb (PrimFloat.ltb m n)
  end.

(** [conforms t v]: the value has the shape the schema declares: the type of
    every declared field, its enumeration or bounds, every field present
    unless optional. Fields the schema does not declare are not looked at. *)
Fixpoint conforms (t : ZodType) (v : value) {struct t} : bool :=
  match t with
  | ZodString => match v with VStr _ => true | _ => false end
  | ZodNumber checks =>
      match v with
      | VNum n => negb (PrimFloat.is_nan n) && forallb (check_holds n) checks
      | _ => false
      end
  | ZodBoolean => match v with VBool _ => true | _ => false end
  | ZodEnum values =>
      match v with VStr s => existsb (String.eqb s) values | _ => false end
  | ZodArray element =>
      match v with VArr items => forallb (conforms element) items | _ => false end
  | ZodObject shape =>
      match v with
      | VObj fields =>
          forallb (fun kt => conforms (snd kt) (field (fst kt) fields)) shape
      | _ => false
      end
  | ZodOptional innerType =>
      match v with VUndefined => true | _ => conforms innerType v end
  end.

(** [only_declared t v]: at every object the schema describes, the value has
    no key outside the shape. *)
Fixpoint only_declared (t : ZodType) (v : value) {struct t} : bool :=
  match t with
  | ZodArray element =>
      match v with VArr items => forallb (only_declared element) items | _ => true end
  | ZodObject shape =>
      match v with
      | VObj fields =>
          forallb (fun kx => has_key (fst kx) shape) fields
          && forallb (fun kt => only_declared (snd kt) (field (fst kt) fields)) shape
      | _ => true
      end
  | ZodOptional innerType => only_declared innerType v
  | _ => true
  end.

(** A schema is required unless it is wrapped in [.optional()]. *)
Definition is_required (t : ZodType) : bool :=
  match t with ZodOptional _ => false | _ => true end.

(** [lacks_required t v]: somewhere in the value, an object misses a key its
    shape declares without [.optional()]. *)
Fixpoint lacks_required (t : ZodType) (v : value) {struct t} : bool :=
  match t with
  | ZodArray element =>
      match v with VArr items => existsb (lacks_required element) items | _ => false end
  | ZodObject shape =>
      match v with
      | VObj fields =>
          existsb (fun kt =>
                     match assoc (fst kt) fields with
                     | None => is_required (snd kt)
                     | Some x => lacks_required (snd kt) x
                     end) shape
      | _ => false
      end
  | ZodOptional innerType =>
      match v with VUndefined => false | _ => lacks_required innerType v end
  | _ => false
  end.

(** The keys of an association list are pairwise distinct. *)
Fixpoint distinct_keys {A : Type} (fs : list (string * A)) : bool :=
  match fs with
  | [] => true
  | (k, _) :: rest => negb (has_key k rest) && distinct_keys rest
  end.

(** An object literal cannot repeat a key: the shapes of a schema have
    pairwise distinct keys. *)
Fixpoint shapes_distinct (t : ZodType) : bool :=
  match t with
  | ZodArray element => shapes_distinct element
  | ZodObject shape =>
      distinct_keys shape && forallb (fun kt => shapes_distinct (snd kt)) shape
  | ZodOptional innerType => shapes_distinct innerType
  | _ => true
  end.

(** A JavaScript object holds one value per key: every object of a value has
    pairwise distinct keys. *)
Fixpoint objects_distinct (v : value) : bool :=
  match v with
  | VArr items => forallb objects_distinct items
  | VObj fields =>
      distinct_keys fields && forallb (fun kx => objects_distinct (snd kx)) fields
  | _ => true
  end.

(** Numbers are the same when [===] holds or both are [NaN]. *)
Definition same_number (x y : float) : bool :=
  PrimFloat.eqb x y || (PrimFloat.is_nan x && PrimFloat.is_nan y).

(** Deep equality of values: arrays item by item, objects key by key whatever
    the order of the keys. *)
Fixpoint same_value (a b : value) {struct a} : bool :=
  match a, b with
  | VUndefined, VUndefined => true
  | VNull, VNull => true
  | VBool x, VBool y => Bool.eqb x y
  | VNum x, VNum y => same_number x y
  | VStr x, VStr y => String.eqb x y
  | VArr xs, VArr ys =>
      (fix same_items (xs ys : list value) {struct xs} : bool :=
         match xs, ys with
         | [], [] => true
         | x :: xs', y :: ys' => same_value x y && same_items xs' ys'
         | _, _ => false
         end) xs ys
  | VObj fa, VObj fb =>
      forallb (fun kx =>
                 match assoc (fst kx) fb with
                 | Some y => same_value (snd kx) y
                 | None => false
                 end) fa
      && forallb (fun ky => has_key (fst ky) fa) fb
  | _, _ => false
  end.

(** [strip t v]: the value with the keys that the schema does not declare
    removed, at every object the schema describes; what is kept stays in
    the order of the input. *)
Fixpoint strip (t : ZodType) (v : value) {struct t} : value :=
  match t with
  | ZodArray element =>
      match v with VArr items => VArr (map (strip element) items) | _ => v end
  | ZodObject shape =>
      match v with
      | VObj fields =>
          VObj (flat_map
                  (fun kx =>
                     (fix declared (sh : list (string * ZodType))
                        : list (string * value) :=
                        match sh with
                        | [] => []
                        | (k, kt) :: rest =>
                            if String.eqb (fst kx) k
                            then [(fst kx, strip kt (snd kx))]
                            else declared rest
                        end) shape)
                  fields)
      | _ => v
      end
  | ZodOptional innerType => strip innerType v
  | _ => v
  end.

Fixpoint same_keys (a b : list string) : bool :=
  match a, b with
  | [], [] => true
  | x :: a', y :: b' => String.eqb x y && same_keys a' b'
  | _, _ => false
  end.

(** [schema_ordered t v]: at every object the schema describes, the keys of
    the value are the keys of the shape that the value holds, in the order
    of the shape. *)
Fixpoint schema_ordered (t : ZodType) (v : value) {struct t} : bool :=
  match t with
  | ZodArray element =>
      match v with VArr items => forallb (schema_ordered element) items | _ => true end
  | ZodObject shape =>
      match v with
      | VObj fields =>
          same_keys (map fst fields)
            (filter (fun k => has_key k fields) (map fst shape))
          && forallb (fun kt => schema_ordered (snd kt) (field (fst kt) fields))
               shape
      | _ => true
      end
  | ZodOptional innerType => schema_ordered innerType v
  | _ => true
  end.

(** ** The seven features *)

Inductive Feature : Type :=
| ConflictAnalysis
| CoworkingRecommendation
| TimeZoneRecommendation
| BudgetAnalysis
| CommunityRecommendation
| LegalResource
| AssistantResponse.

Definition schema_of (f : Feature) : ZodType :=
  match f with
  | ConflictAnalysis => conflictAnalysisSchema
  | CoworkingRecommendation => coworkingRecommendationSchema
  | TimeZoneRecommendation => timeZoneRecommendationSchema
  | BudgetAnalysis => budgetAnalysisSchema
  | CommunityRecommendation => communityRecommendationSchema
  | LegalResource => legalResourceSchema
  | AssistantResponse => assistantResponseSchema
  end.

(** ** Exceptions, the network and the console *)

(** What the module can throw: [new Error(msg)], the runtime's [TypeError]
    (a property read on [null] or [undefined], a failed [fetch]) and
    [SyntaxError] (a body that [response.json()] cannot read), and zod's
    [ZodError], a class of its own. *)
Inductive exn : Type :=
| Error (message : string)
| TypeError (message : string)
| SyntaxError (message : string)
| ZodError (issues : list ZodIssue).

Record Request : Type := mkRequest {
  req_url : string;
  req_method : string;
  req_headers : list (string * string);
  req_body : option string
}.

Record Response : Type := mkResponse {
  ok : bool;
  status : nat;
  text : string;          (* [await response.text()] *)
  json : option value     (* [await response.json()]; [None]: the body is not JSON *)
}.

(** [fetch] resolves with a response or rejects with a [TypeError]. *)
Inductive FetchResult : Type :=
| Resolved (response : Response)
| Rejected (message : string).

(** The world a call runs in: the process environment and the remote
    service, which may answer by the requests it has seen. *)
Record World : Type := mkWorld {
  GEMINI_API_KEY : option string;
  remote : list Request -> Request -> FetchResult
}.

(** What a run leaves behind: the requests sent, oldest first, and the
    errors written with [console.error]. *)
Record Log : Type := mkLog {
  network : list Request;
  console : list exn
}.

Definition empty_log : Log := mkLog [] [].

(** A computation either returns or throws, and extends the log. *)
Inductive Outcome (A : Type) : Type :=
| Return (a : A)
| Throw (e : exn).
Arguments Return {A} a.
Arguments Throw {A} e.

Definition M (A : Type) : Type := Log -> Outcome A * Log.

Definition ret {A : Type} (a : A) : M A := fun l => (Return a, l).

Definition throw {A : Type} (e : exn) : M A := fun l => (Throw e, l).

Definition bind {A B : Type} (c : M A) (k : A -> M B) : M B :=
  fun l =>
    match c l with
    | (Return a, l') => k a l'
    | (Throw e, l') => (Throw e, l')
    end.

Definition try_catch {A : Type} (c : M A) (handler : exn -> M A) : M A :=
  fun l =>
    match c l with
    | (Return a, l') => (Return a, l')
    | (Throw e, l') => handler e l'
    end.

Definition lift {A : Type} (r : exn + A) : M A :=
  match r with inl e => throw e | inr a => ret a end.

Declare Scope js_scope.
Delimit Scope js_scope with js.
Notation "x <- c ;; k" := (bind c (fun x => k))
  (at level 61, c at next level, right associativity) : js_scope.
Notation "c ;;; k" := (bind c (fun _ => k))
  (at level 61, right associativity) : js_scope.
Open Scope js_scope.

Definition console_error (e : exn) : M unit :=
  fun l => (Return tt, mkLog (network l) (console l ++ [e])).

(** [await fetch(url, init)] in world [w]: the request is logged, then the
    remote service answers. *)
Definition fetch (w : World) (r : Request) : M Response :=
  fun l =>
    let l' := mkLog (network l ++ [r]) (console l) in
    match remote w (network l) r with
    | Resolved response => (Return response, l')
    | Rejected message => (Throw (TypeError message), l')
    end.

Definition response_json (r : Response) : M value :=
  match json r with
  | Some data => ret data
  | None => throw (SyntaxError "Unexpected token in JSON")
  end.

(** ** Property reads *)

Definition quoted (k : string) : string := "'" ++ k ++ "'".

Definition cannot_read (what k : string) : exn :=
  TypeError ("Cannot read properties of " ++ what ++ " (reading " ++ quoted k ++ ")").

Definition decimal (n : nat) : string := NilEmpty.string_of_uint (Nat.to_uint n).

(** [v.k] for a property name [k] that is not an index and not [length]:
    only an object can own it, reading it on [null] or [undefined] throws. *)
Definition get_named (v : value) (k : string) : exn + value :=
  match v with
  | VUndefined => inl (cannot_read "undefined" k)
  | VNull => inl (cannot_read "null" k)
  | VObj fields => inr (field k fields)
  | _ => inr VUndefined
  end.

(** [v[i]] for an index [i]. *)
Definition get_index (v : value) (i : nat) : exn + value :=
  match v with
  | VUndefined => inl (cannot_read "undefined" (decimal i))
  | VNull => inl (cannot_read "null" (decimal i))
  | VArr items => inr (nth i items VUndefined)
  | VStr s =>
      inr (match String.get i s with
           | Some c => VStr (String c EmptyString)
           | None => VUndefined
           end)
  | VObj fields => inr (field (decimal i) fields)
  | _ => inr VUndefined
  end.

(** [v.length === 0] for a truthy [v]. *)
Definition length_is_0 (v : value) : bool :=
  match v with
  | VArr items => match items with [] => true | _ => false end
  | VStr s => String.eqb s EmptyString
  | VObj fields =>
      match field "length" fields with
      | VNum n => PrimFloat.eqb n 0%float
      | _ => false
      end
  | _ => false
  end.

(** ** Prompt templates *)

Definition dq : string := String (ascii_of_nat 34) EmptyString.
Definition nl : string := String (ascii_of_nat 10) EmptyString.
Definition unlines (lines : list string) : string := String.concat nl lines.

(** The template literal of [analyzeCalendarConflicts], around [${JSON.stringify(events, null, 2)}]. *)
Definition analyzeCalendarConflicts_prompt_head : string := unlines [
  EmptyString;
  "    You are an AI assistant for a digital nomad planner application. Analyze these calendar events:";
  "    "
].

Definition analyzeCalendarConflicts_prompt_tail : string := unlines [
  EmptyString;
  "    ";
  "    Identify any conflicts, especially between work and travel events. Explain the specific issues, ";
  "    and suggest three alternative scheduling options that minimize disruption. ";
  "    ";
  "    Format your response as JSON with these fields:";
  "    {";
  ("      " ++ dq ++ "hasConflict" ++ dq ++ ": boolean,")%string;
  ("      " ++ dq ++ "conflictDetails" ++ dq ++ ": string (only if hasConflict is true),")%string;
  ("      " ++ dq ++ "suggestedSolutions" ++ dq ++ ": [")%string;
  "        {";
  ("          " ++ dq ++ "description" ++ dq ++ ": string,")%string;
  ("          " ++ dq ++ "pros" ++ dq ++ ": [string],")%string;
  ("          " ++ dq ++ "cons" ++ dq ++ ": [string]")%string;
  "        }";
  "      ] (only if hasConflict is true)";
  "    }";
  "  "
].

(** The template literal of [getCoworkingRecommendations], around [${JSON.stringify(preferences, null, 2)}]. *)
Definition getCoworkingRecommendations_prompt_head : string := unlines [
  EmptyString;
  "    You are an AI assistant for a digital nomad planner application. Based on the following user preferences and location data:";
  "    "
].

Definition getCoworkingRecommendations_prompt_tail : string := unlines [
  EmptyString;
  "    ";
  "    Recommend three suitable co-working spaces, with detailed information about each option ";
  "    including why it matches the user's criteria, any potential drawbacks, and a final ranking. ";
  "    ";
  "    Format your response as JSON with this structure:";
  "    {";
  ("      " ++ dq ++ "recommendations" ++ dq ++ ": [")%string;
  "        {";
  ("          " ++ dq ++ "name" ++ dq ++ ": string,")%string;
  ("          " ++ dq ++ "location" ++ dq ++ ": string,")%string;
  ("          " ++ dq ++ "rating" ++ dq ++ ": string,")%string;
  ("          " ++ dq ++ "price" ++ dq ++ ": string,")%string;
  ("          " ++ dq ++ "internetSpeed" ++ dq ++ ": string,")%string;
  ("          " ++ dq ++ "amenities" ++ dq ++ ": [string],")%string;
  ("          " ++ dq ++ "matchingCriteria" ++ dq ++ ": [string],")%string;
  ("          " ++ dq ++ "potentialDrawbacks" ++ dq ++ ": [string],")%string;
  ("          " ++ dq ++ "rank" ++ dq ++ ": number (1-5)")%string;
  "        }";
  "      ],";
  ("      " ++ dq ++ "recommendationSummary" ++ dq ++ ": string")%string;
  "    }";
  "  "
].

(** The template literal of [getTimeZoneRecommendations], around [${JSON.stringify(teamInfo, null, 2)}]. *)
Definition getTimeZoneRecommendations_prompt_head : string := unlines [
  EmptyString;
  "    You are an AI assistant for a digital nomad planner application. The user has team members in the following locations:";
  "    "
].

Definition getTimeZoneRecommendations_prompt_tail : string := unlines [
  EmptyString;
  "    ";
  "    Suggest three optimal time slots that maximize team member waking hours (7 AM - 10 PM local time).";
  "    Include reasoning for each suggestion and identify which team members might be most inconvenienced by each option.";
  "    ";
  "    Format your response as JSON with this structure:";
  "    {";
  ("      " ++ dq ++ "optimalMeetingTimes" ++ dq ++ ": [")%string;
  "        {";
  ("          " ++ dq ++ "startTime" ++ dq ++ ": string (ISO format),")%string;
  ("          " ++ dq ++ "endTime" ++ dq ++ ": string (ISO format),")%string;
  ("          " ++ dq ++ "impactAssessment" ++ dq ++ ": [")%string;
  "            {";
  ("              " ++ dq ++ "location" ++ dq ++ ": string,")%string;
  ("              " ++ dq ++ "localTime" ++ dq ++ ": string,")%string;
  ("              " ++ dq ++ "impact" ++ dq ++ ": string (Optimal/Acceptable/Challenging)")%string;
  "            }";
  "          ],";
  ("          " ++ dq ++ "reasoning" ++ dq ++ ": string")%string;
  "        }";
  "      ],";
  ("      " ++ dq ++ "jetlagManagementTips" ++ dq ++ ": [string] (optional)")%string;
  "    }";
  "  "
].

(** The template literal of [analyzeBudget], around [${JSON.stringify(expenseData, null, 2)}]. *)
Definition analyzeBudget_prompt_head : string := unlines [
  EmptyString;
  "    You are an AI assistant for a digital nomad planner application. Analyze this user's expense data:";
  "    "
].

Definition analyzeBudget_prompt_tail : string := unlines [
  EmptyString;
  "    ";
  "    Categorize each expense as either work-related, travel-related, or mixed. Provide a detailed ";
  "    analysis of their spending patterns, compare it to typical digital nomad costs in that location, ";
  "    and suggest three specific ways they could optimize their budget.";
  "    ";
  "    Format your response as JSON with this structure:";
  "    {";
  ("      " ++ dq ++ "categorizedExpenses" ++ dq ++ ": [")%string;
  "        {";
  ("          " ++ dq ++ "category" ++ dq ++ ": string,")%string;
  ("          " ++ dq ++ "amount" ++ dq ++ ": number,")%string;
  ("          " ++ dq ++ "percentage" ++ dq ++ ": number,")%string;
  ("          " ++ dq ++ "workRelated" ++ dq ++ ": boolean")%string;
  "        }";
  "      ],";
  ("      " ++ dq ++ "comparisonToAverage" ++ dq ++ ": {")%string;
  ("        " ++ dq ++ "status" ++ dq ++ ": string (Above average/Below average/Average),")%string;
  ("        " ++ dq ++ "details" ++ dq ++ ": string")%string;
  "      },";
  ("      " ++ dq ++ "recommendations" ++ dq ++ ": [")%string;
  "        {";
  ("          " ++ dq ++ "description" ++ dq ++ ": string,")%string;
  ("          " ++ dq ++ "potentialSavings" ++ dq ++ ": number,")%string;
  ("          " ++ dq ++ "implementationDifficulty" ++ dq ++ ": string (Easy/Medium/Hard)")%string;
  "        }";
  "      ]";
  "    }";
  "  "
].

(** The template literal of [getCommunityRecommendations], around [${JSON.stringify(userProfile, null, 2)}]. *)
Definition getCommunityRecommendations_prompt_head : string := unlines [
  EmptyString;
  "    You are an AI assistant for a digital nomad planner application. The user has provided the following information:";
  "    "
].

Definition getCommunityRecommendations_prompt_tail : string := unlines [
  EmptyString;
  "    ";
  "    Recommend five specific community events or groups they should connect with in their location, ";
  "    including a detailed explanation of why each recommendation matches their profile, specific contact ";
  "    methods or locations, and best approaches for making meaningful connections.";
  "    ";
  "    Format your response as JSON with this structure:";
  "    {";
  ("      " ++ dq ++ "recommendations" ++ dq ++ ": [")%string;
  "        {";
  ("          " ++ dq ++ "name" ++ dq ++ ": string,")%string;
  ("          " ++ dq ++ "type" ++ dq ++ ": string,")%string;
  ("          " ++ dq ++ "relevanceScore" ++ dq ++ ": number (1-10),")%string;
  ("          " ++ dq ++ "description" ++ dq ++ ": string,")%string;
  ("          " ++ dq ++ "contactMethod" ++ dq ++ ": string,")%string;
  ("          " ++ dq ++ "matchingInterests" ++ dq ++ ": [string],")%string;
  ("          " ++ dq ++ "networkingApproach" ++ dq ++ ": string")%string;
  "        }";
  "      ]";
  "    }";
  "  "
].

(** The template literal of [getLegalResources], around [${query.question}]. *)
Definition getLegalResources_prompt_head : string := unlines [
  EmptyString;
  "    You are an AI assistant for a digital nomad planner application. The user has asked:";
  ("    " ++ dq)%string
].

Definition getLegalResources_prompt_tail : string := unlines [
  dq;
  "    ";
  "    Provide comprehensive information about relevant visa options, tax considerations, and work legality ";
  "    for digital nomads. Format your response with clear sections, highlighting key requirements, application ";
  "    processes, timelines, and authoritative sources where they can find official information.";
  "    ";
  "    Make clear you're providing general information, not legal advice. Format as structured JSON with this structure:";
  "    {";
  ("      " ++ dq ++ "visaRequirements" ++ dq ++ ": {")%string;
  ("        " ++ dq ++ "requiredVisa" ++ dq ++ ": string,")%string;
  ("        " ++ dq ++ "stayDuration" ++ dq ++ ": string,")%string;
  ("        " ++ dq ++ "applicationProcess" ++ dq ++ ": string,")%string;
  ("        " ++ dq ++ "requiredDocuments" ++ dq ++ ": [string],")%string;
  ("        " ++ dq ++ "processingTime" ++ dq ++ ": string,")%string;
  ("        " ++ dq ++ "fees" ++ dq ++ ": string")%string;
  "      },";
  ("      " ++ dq ++ "taxImplications" ++ dq ++ ": {")%string;
  ("        " ++ dq ++ "taxStatus" ++ dq ++ ": string,")%string;
  ("        " ++ dq ++ "reportingRequirements" ++ dq ++ ": string,")%string;
  ("        " ++ dq ++ "treatiesSummary" ++ dq ++ ": string,")%string;
  ("        " ++ dq ++ "keyConsiderations" ++ dq ++ ": [string]")%string;
  "      },";
  ("      " ++ dq ++ "workLegality" ++ dq ++ ": {")%string;
  ("        " ++ dq ++ "legalStatus" ++ dq ++ ": string,")%string;
  ("        " ++ dq ++ "restrictions" ++ dq ++ ": [string],")%string;
  ("        " ++ dq ++ "permissions" ++ dq ++ ": [string]")%string;
  "      },";
  ("      " ++ dq ++ "authoritativeSources" ++ dq ++ ": [")%string;
  "        {";
  ("          " ++ dq ++ "name" ++ dq ++ ": string,")%string;
  ("          " ++ dq ++ "url" ++ dq ++ ": string,")%string;
  ("          " ++ dq ++ "description" ++ dq ++ ": string")%string;
  "        }";
  "      ],";
  ("      " ++ dq ++ "disclaimer" ++ dq ++ ": string")%string;
  "    }";
  "  "
].

(** The template literal of [getAssistantResponse], around [${query}]. *)
Definition getAssistantResponse_prompt_head : string := unlines [
  EmptyString;
  "    You are an AI assistant for a digital nomad planner application. The user has asked:";
  ("    " ++ dq)%string
].

Definition getAssistantResponse_prompt_tail : string := unlines [
  dq;
  "    ";
  "    Provide a helpful response addressing their question. Focus on being concise, informative, and actionable.";
  "    ";
  "    Format your response as JSON with this structure:";
  "    {";
  ("      " ++ dq ++ "response" ++ dq ++ ": string,")%string;
  ("      " ++ dq ++ "relatedModules" ++ dq ++ ": [string] (optional),")%string;
  ("      " ++ dq ++ "suggestedActions" ++ dq ++ ": [string] (optional)")%string;
  "    }";
  "  "
].
(** ** The Gateway and the feature operations *)

Section Gateway.

(** [JSON.parse(x)]: [None] when it throws its [SyntaxError]. *)
Variable JSON_parse : value -> option value.
(** [JSON.stringify(x, null, space)]: [None] when the result is [undefined]. *)
Variable JSON_stringify : value -> nat -> option string.
(** [Number.prototype.toString]. *)
Variable Number_toString : float -> string.
(** The environment and the remote service of the run. *)
Variable w : World.

(** [String(v)], as a template literal converts an interpolated value. *)
Fixpoint ToString (v : value) : string :=
  match v with
  | VUndefined => "undefined"
  | VNull => "null"
  | VBool true => "true"
  | VBool false => "false"
  | VNum n => Number_toString n
  | VStr s => s
  | VArr items =>
      String.concat ","
        (map (fun x =>
                match x with
                | VUndefined | VNull => EmptyString
                | _ => ToString x
                end) items)
  | VObj _ => "[object Object]"
  end.

(** [`${JSON.stringify(x, null, 2)}`]. *)
Definition stringified (x : value) : string :=
  match JSON_stringify x 2 with Some s => s | None => "undefined" end.

Definition missing_key_message : string :=
  "Gemini API key not found. Please set the GEMINI_API_KEY environment variable.".

Definition no_response_message : string :=
  "No response generated from Gemini API".

Definition endpoint : string :=
  "https://generativelanguage.googleapis.com/v1beta/models/gemini-pro:generateContent?key=".

(** [process.env.GEMINI_API_KEY || ""]. *)
Definition apiKey : string :=
  match GEMINI_API_KEY w with
  | Some key => key
  | None => EmptyString
  end.

Definition default_generationConfig : list (string * value) :=
  [("temperature", VNum 0.7%float);
   ("topK", VNum 40%float);
   ("topP", VNum 0.95%float);
   ("maxOutputTokens", VNum 8192%float)].

Definition generationConfig (modelParams : list (string * value))
  : list (string * value) :=
  spread default_generationConfig modelParams.

Definition payload (prompt : string) (modelParams : list (string * value))
  : value :=
  VObj [("contents", VArr [VObj [("parts", VArr [VObj [("text", VStr prompt)]])]]);
        ("generationConfig", VObj (generationConfig modelParams))].

Definition request (prompt : string) (modelParams : list (string * value))
  : Request :=
  mkRequest (endpoint ++ apiKey) "POST"
    [("Content-Type", "application/json")]
    (JSON_stringify (payload prompt modelParams) 0).

(** The inner [try]: [JSON.parse(textContent)], or the raw text wrapped. *)
Definition parse_or_raw (textContent : value) : value :=
  match JSON_parse textContent with
  | Some parsed => parsed
  | None => VObj [("rawResponse", textContent)]
  end.

(** [data.candidates[0].content.parts[0].text]. *)
Definition textContent_of (candidates : value) : exn + value :=
  match get_index candidates 0 with
  | inl e => inl e
  | inr candidate =>
      match get_named candidate "content" with
      | inl e => inl e
      | inr content =>
          match get_named content "parts" with
          | inl e => inl e
          | inr parts =>
              match get_index parts 0 with
              | inl e => inl e
              | inr part => get_named part "text"
              end
          end
      end
  end.

Definition callGeminiAPI (prompt : string)
  (context modelParams : list (string * value)) : M value :=
  if String.eqb apiKey EmptyString then
    throw (Error missing_key_message)
  else
    try_catch
      (response <- fetch w (request prompt modelParams) ;;
       if negb (ok response) then
         let errorData := text response in
         throw (Error ("Gemini API error: " ++ decimal (status response)
                         ++ " - " ++ errorData))
       else
         data <- response_json response ;;
         candidates <- lift (get_named data "candidates") ;;
         if negb (truthy candidates) || length_is_0 candidates then
           throw (Error no_response_message)
         else
           textContent <- lift (textContent_of candidates) ;;
           ret (parse_or_raw textContent))
      (fun error => console_error error ;;; throw error).

(** [schema.parse(data)]: the output, or a thrown [ZodError]. *)
Definition parse (schema : ZodType) (data : value) : M value :=
  match safeParse schema data with
  | OK output => ret output
  | INVALID issues => throw (ZodError issues)
  end.

Definition analyzeCalendarConflicts (events : value) : M value :=
  let prompt := (analyzeCalendarConflicts_prompt_head ++ stringified events
                  ++ analyzeCalendarConflicts_prompt_tail)%string in
  result <- callGeminiAPI prompt [] [] ;;
  parse conflictAnalysisSchema result.

Definition getCoworkingRecommendations (preferences : value) : M value :=
  let prompt := (getCoworkingRecommendations_prompt_head ++ stringified preferences
                  ++ getCoworkingRecommendations_prompt_tail)%string in
  result <- callGeminiAPI prompt [] [] ;;
  parse coworkingRecommendationSchema result.

Definition getTimeZoneRecommendations (teamInfo : value) : M value :=
  let prompt := (getTimeZoneRecommendations_prompt_head ++ stringified teamInfo
                  ++ getTimeZoneRecommendations_prompt_tail)%string in
  result <- callGeminiAPI prompt [] [] ;;
  parse timeZoneRecommendationSchema result.

Definition analyzeBudget (expenseData : value) : M value :=
  let prompt := (analyzeBudget_prompt_head ++ stringified expenseData
                  ++ analyzeBudget_prompt_tail)%string in
  result <- callGeminiAPI prompt [] [] ;;
  parse budgetAnalysisSchema result.

Definition getCommunityRecommendations (userProfile : value) : M value :=
  let prompt := (getCommunityRecommendations_prompt_head ++ stringified userProfile
                  ++ getCommunityRecommendations_prompt_tail)%string in
  result <- callGeminiAPI prompt [] [] ;;
  parse communityRecommendationSchema result.

Definition getLegalResources (query : value) : M value :=
  question <- lift (get_named query "question") ;;
  let prompt := (getLegalResources_prompt_head ++ ToString question
                  ++ getLegalResources_prompt_tail)%string in
  result <- callGeminiAPI prompt [] [] ;;
  parse legalResourceSchema result.

Definition getAssistantResponse (query : value) : M value :=
  let prompt := (getAssistantResponse_prompt_head ++ ToString query
                  ++ getAssistantResponse_prompt_tail)%string in
  result <- callGeminiAPI prompt [] [] ;;
  parse assistantResponseSchema result.

(** The two literal parts of the template of a feature. *)
Definition prompt_head (f : Feature) : string :=
  match f with
  | ConflictAnalysis => analyzeCalendarConflicts_prompt_head
  | CoworkingRecommendation => getCoworkingRecommendations_prompt_head
  | TimeZoneRecommendation => getTimeZoneRecommendations_prompt_head
  | BudgetAnalysis => analyzeBudget_prompt_head
  | CommunityRecommendation => getCommunityRecommendations_prompt_head
  | LegalResource => getLegalResources_prompt_head
  | AssistantResponse => getAssistantResponse_prompt_head
  end.

Definition prompt_tail (f : Feature) : string :=
  match f with
  | ConflictAnalysis => analyzeCalendarConflicts_prompt_tail
  | CoworkingRecommendation => getCoworkingRecommendations_prompt_tail
  | TimeZoneRecommendation => getTimeZoneRecommendations_prompt_tail
  | BudgetAnalysis => analyzeBudget_prompt_tail
  | CommunityRecommendation => getCommunityRecommendations_prompt_tail
  | LegalResource => getLegalResources_prompt_tail
  | AssistantResponse => getAssistantResponse_prompt_tail
  end.

(** The text a template interpolates: the input serialized with
    [JSON.stringify(input, null, 2)] for five features, [query.question]
    (which throws when [query] is [null] or [undefined]) and [query]
    converted to a string for the other two. *)
Definition interpolated (f : Feature) (input : value) : exn + string :=
  match f with
  | LegalResource =>
      match get_named input "question" with
      | inl e => inl e
      | inr question => inr (ToString question)
      end
  | AssistantResponse => inr (ToString input)
  | _ => inr (stringified input)
  end.

(** The prompt an operation builds from its input. *)
Definition prompt_of (f : Feature) (input : value) : exn + string :=
  match interpolated f input with
  | inl e => inl e
  | inr data => inr (prompt_head f ++ data ++ prompt_tail f)%string
  end.

(** The public operation of a feature. *)
Definition operation (f : Feature) : value -> M value :=
  match f with
  | ConflictAnalysis => analyzeCalendarConflicts
  | CoworkingRecommendation => getCoworkingRecommendations
  | TimeZoneRecommendation => getTimeZoneRecommendations
  | BudgetAnalysis => analyzeBudget
  | CommunityRecommendation => getCommunityRecommendations
  | LegalResource => getLegalResources
  | AssistantResponse => getAssistantResponse
  end.

End Gateway.

(** ** A reference runtime

    A parser for a fragment of JSON (no exponent, no unicode escape, numbers
    of at most fifteen digits), to run the model on concrete texts. Texts
    outside the fragment are rejected. *)

Definition is_ws (c : ascii) : bool :=
  let n := nat_of_ascii c in
  Nat.eqb n 32 || Nat.eqb n 9 || Nat.eqb n 10 || Nat.eqb n 13.

Fixpoint skip_ws (s : string) : string :=
  match s with
  | String c rest => if is_ws c then skip_ws rest else s
  | EmptyString => s
  end.

Definition digit_of (c : ascii) : option nat :=
  let n := nat_of_ascii c in
  if Nat.leb 48 n && Nat.leb n 57 then Some (n - 48) else None.

Definition float_of_digit (d : nat) : float :=
  match d with
  | 0 => 0 | 1 => 1 | 2 => 2 | 3 => 3 | 4 => 4
  | 5 => 5 | 6 => 6 | 7 => 7 | 8 => 8 | _ => 9
  end%float.

Fixpoint take_digits (s : string) : list nat * string :=
  match s with
  | String c rest =>
      match digit_of c with
      | Some d => let '(ds, rest') := take_digits rest in (d :: ds, rest')
      | None => ([], s)
      end
  | EmptyString => ([], s)
  end.

Definition float_of_digits (ds : list nat) : float :=
  fold_left (fun acc d => (acc * 10 + float_of_digit d)%float) ds 0%float.

Fixpoint pow10 (k : nat) : float :=
  match k with 0 => 1%float | S k' => (pow10 k' * 10)%float end.

(** [-? int frac?], with at most fifteen digits, so that the quotient of the
    digits by the power of ten is the nearest binary64 number. *)
Definition parse_number (s : string) : option (float * string) :=
  let '(negative, s1) :=
    match s with
    | String "-" rest => (true, rest)
    | _ => (false, s)
    end in
  let '(int_part, s2) := take_digits s1 in
  let leading_zero :=
    match int_part with 0 :: _ :: _ => true | _ => false end in
  let '(frac_part, s3) :=
    match s2 with
    | String "." rest => take_digits rest
    | _ => ([], s2)
    end in
  let dot_without_digits :=
    match s2, frac_part with String "." _, [] => true | _, _ => false end in
  match int_part with
  | [] => None
  | _ =>
      if leading_zero || dot_without_digits
         || Nat.ltb 15 (List.length int_part + List.length frac_part)
      then None
      else
        let magnitude :=
          (float_of_digits (int_part ++ frac_part)%list / pow10 (List.length frac_part))%float in
        Some (if negative then (- magnitude)%float else magnitude, s3)
  end.

Definition unescape (c : ascii) : option ascii :=
  let n := nat_of_ascii c in
  if Nat.eqb n 34 then Some c            (* quote *)
  else if Nat.eqb n 92 then Some c       (* backslash *)
  else if Nat.eqb n 47 then Some c       (* slash *)
  else if Nat.eqb n 110 then Some (ascii_of_nat 10)
  else if Nat.eqb n 116 then Some (ascii_of_nat 9)
  else if Nat.eqb n 114 then Some (ascii_of_nat 13)
  else if Nat.eqb n 98 then Some (ascii_of_nat 8)
  else if Nat.eqb n 102 then Some (ascii_of_nat 12)
  else None.

(** The characters of a string literal, after its opening quote. *)
Fixpoint parse_chars (s : string) : option (string * string) :=
  match s with
  | EmptyString => None
  | String c rest =>
      let n := nat_of_ascii c in
      if Nat.eqb n 34 then Some (EmptyString, rest)
      else if Nat.eqb n 92 then
        match rest with
        | String e rest' =>
            match unescape e, parse_chars rest' with
            | Some c', Some (body, after) => Some (String c' body, after)
            | _, _ => None
            end
        | EmptyString => None
        end
      else if Nat.ltb n 32 then None
      else
        match parse_chars rest with
        | Some (body, after) => Some (String c body, after)
        | None => None
        end
  end.

Definition expect (word : string) (v : value) (s : string) : option (value * string) :=
  if String.prefix word s
  then Some (v, String.substring (String.length word) (String.length s - String.length word) s)
  else None.

Fixpoint parse_value (fuel : nat) (s : string) {struct fuel} : option (value * string) :=
  match fuel with
  | 0 => None
  | S fuel' =>
      match skip_ws s with
      | String c rest =>
          let n := nat_of_ascii c in
          if Nat.eqb n 123 then                       (* { *)
            match skip_ws rest with
            | String c' rest' =>
                if Nat.eqb (nat_of_ascii c') 125 then Some (VObj [], rest')
                else parse_members fuel' [] (skip_ws rest)
            | EmptyString => None
            end
          else if Nat.eqb n 91 then                   (* [ *)
            match skip_ws rest with
            | String c' rest' =>
                if Nat.eqb (nat_of_ascii c') 93 then Some (VArr [], rest')
                else parse_elements fuel' [] rest
            | EmptyString => None
            end
          else if Nat.eqb n 34 then
            match parse_chars rest with
            | Some (body, after) => Some (VStr body, after)
            | None => None
            end
          else if Nat.eqb n 116 then expect "true" (VBool true) (String c rest)
          else if Nat.eqb n 102 then expect "false" (VBool false) (String c rest)
          else if Nat.eqb n 110 then expect "null" VNull (String c rest)
          else
            match parse_number (String c rest) with
            | Some (x, after) => Some (VNum x, after)
            | None => None
            end
      | EmptyString => None
      end
  end
with parse_elements (fuel : nat) (acc : list value) (s : string) {struct fuel}
  : option (value * string) :=
  match fuel with
  | 0 => None
  | S fuel' =>
      match parse_value fuel' s with
      | Some (v, after) =>
          match skip_ws after with
          | String c rest =>
              let n := nat_of_ascii c in
              if Nat.eqb n 44 then parse_elements fuel' (acc ++ [v]) rest
              else if Nat.eqb n 93 then Some (VArr (acc ++ [v]), rest)
              else None
          | EmptyString => None
          end
      | None => None
      end
  end
with parse_members (fuel : nat) (acc : list (string * value)) (s : string) {struct fuel}
  : option (value * string) :=
  match fuel with
  | 0 => None
  | S fuel' =>
      match s with
      | String q rest =>
          if Nat.eqb (nat_of_ascii q) 34 then
            match parse_chars rest with
            | Some (k, after_key) =>
                match skip_ws after_key with
                | String colon after_colon =>
                    if Nat.eqb (nat_of_ascii colon) 58 then
                      match parse_value fuel' after_colon with
                      | Some (v, after) =>
                          match skip_ws after with
                          | String c rest' =>
                              let n := nat_of_ascii c in
                              if Nat.eqb n 44
                              then parse_members fuel' (set_prop k v acc) (skip_ws rest')
                              else if Nat.eqb n 125
                              then Some (VObj (set_prop k v acc), rest')
                              else None
                          | EmptyString => None
                          end
                      | None => None
                      end
                    else None
                | EmptyString => None
                end
            | None => None
            end
          else None
      | EmptyString => None
      end
  end.

Definition parse_text (s : string) : option value :=
  match parse_value (2 * String.length s + 2) s with
  | Some (v, after) =>
      match skip_ws after with
      | EmptyString => Some v
      | _ => None
      end
  | None => None
  end.

(** [JSON.parse(x)] on the fragment: a string is parsed; [null], a boolean
    and a finite number print to a text that parses back to them;
    [undefined] and an object print to a text that is not JSON. *)
Definition reference_JSON_parse (x : value) : option value :=
  match x with
  | VStr s => parse_text s
  | VNull => Some VNull
  | VBool b => Some (VBool b)
  | VNum n => if PrimFloat.is_finite n then Some (VNum n) else None
  | _ => None
  end.

(** A printer for the same fragment: numbers print in fixed notation
    (JavaScript switches to the exponent notation from 1e21 and below 1e-6),
    strings escape the quote, the backslash and the control characters. *)

Definition digits_of_N (n : N) : string := NilZero.string_of_uint (N.to_uint n).

Fixpoint zeros (k : nat) : string :=
  match k with 0 => EmptyString | S k' => String "0" (zeros k') end.

(** [n / 10^k] in fixed notation. *)
Definition fixed (n : N) (k : nat) : string :=
  let p := N.pow 10 (N.of_nat k) in
  let whole := digits_of_N (N.div n p) in
  match k with
  | 0 => whole
  | _ =>
      let frac := digits_of_N (N.modulo n p) in
      (whole ++ "." ++ zeros (k - String.length frac) ++ frac)%string
  end.

(** [m * 2^e * 10^k], rounded to the nearest natural number. *)
Definition scaled (m : positive) (e : Z) (k : nat) : N :=
  let n := (Npos m * N.pow 10 (N.of_nat k))%N in
  match e with
  | Zneg q => let d := N.pow 2 (Npos q) in N.div (2 * n + d) (2 * d)
  | _ => (n * N.pow 2 (Z.to_N e))%N
  end.

(** The shortest fixed notation, of at most [k + fuel] decimals, that
    [parse_number] reads back as [x]. *)
Fixpoint shortest (x : float) (m : positive) (e : Z) (k fuel : nat) : string :=
  let candidate := fixed (scaled m e k) k in
  match fuel with
  | 0 => candidate
  | S fuel' =>
      match parse_number candidate with
      | Some (y, EmptyString) =>
          if PrimFloat.eqb x y then candidate else shortest x m e (S k) fuel'
      | _ => shortest x m e (S k) fuel'
      end
  end.

(** [Number.prototype.toString]: an integer prints its digits, another
    number its shortest fixed notation. *)
Definition reference_Number_toString (x : float) : string :=
  match FloatOps.Prim2SF x with
  | S754_nan => "NaN"
  | S754_infinity negative => if negative then "-Infinity" else "Infinity"
  | S754_zero _ => "0"
  | S754_finite negative m e =>
      ((if negative then "-" else EmptyString)
         ++ match e with
            | Zneg _ => shortest (PrimFloat.abs x) m e 0 17
            | _ => fixed (scaled m e 0) 0
            end)%string
  end.

Definition hex_digit (n : nat) : ascii :=
  ascii_of_nat (if Nat.ltb n 10 then 48 + n else 87 + n).

Definition escape_char (c : ascii) : string :=
  let n := nat_of_ascii c in
  if Nat.eqb n 34 then "\" ++ dq
  else if Nat.eqb n 92 then "\\"
  else if Nat.eqb n 10 then "\n"
  else if Nat.eqb n 13 then "\r"
  else if Nat.eqb n 9 then "\t"
  else if Nat.eqb n 8 then "\b"
  else if Nat.eqb n 12 then "\f"
  else if Nat.ltb n 32 then
    "\u00" ++ String (hex_digit (n / 16)) (String (hex_digit (n mod 16)) EmptyString)
  else String c EmptyString.

Fixpoint escape (s : string) : string :=
  match s with
  | EmptyString => EmptyString
  | String c rest => (escape_char c ++ escape rest)%string
  end.

Definition quote_json (s : string) : string := (dq ++ escape s ++ dq)%string.

Fixpoint spaces (k : nat) : string :=
  match k with 0 => EmptyString | S k' => String " " (spaces k') end.

(** The members of an array or an object between their brackets, one per
    line when [gap] is not zero. *)
Definition wrap (opening closing : string) (gap indent : nat) (members : list string)
  : string :=
  match members with
  | [] => (opening ++ closing)%string
  | _ =>
      match gap with
      | 0 => (opening ++ String.concat "," members ++ closing)%string
      | _ =>
          (opening ++ nl ++ spaces (indent + gap)
             ++ String.concat ("," ++ nl ++ spaces (indent + gap)) members
             ++ nl ++ spaces indent ++ closing)%string
      end
  end.

(** [SerializeJSONProperty]: [None] is [undefined]. *)
Fixpoint serialize (gap indent : nat) (v : value) : option string :=
  match v with
  | VUndefined => None
  | VNull => Some "null"
  | VBool true => Some "true"
  | VBool false => Some "false"
  | VNum n =>
      Some (if PrimFloat.is_finite n then reference_Number_toString n else "null")
  | VStr s => Some (quote_json s)
  | VArr items =>
      Some (wrap "[" "]" gap indent
              (map (fun x =>
                      match serialize gap (indent + gap) x with
                      | Some s => s
                      | None => "null"
                      end) items))
  | VObj fields =>
      Some (wrap "{" "}" gap indent
              (flat_map (fun kx =>
                           match serialize gap (indent + gap) (snd kx) with
                           | Some s =>
                               [(quote_json (fst kx) ++ ":"
                                   ++ (match gap with 0 => EmptyString | _ => " " end)
                                   ++ s)%string]
                           | None => []
                           end) fields))
  end.

Definition reference_JSON_stringify (x : value) (space : nat) : option string :=
  serialize (Nat.min space 10) 0 x.

(** A JSON string literal without escapes. *)
Definition in_quotes (s : string) : string := (dq ++ s ++ dq)%string.

(** The text [{"response":"Lisbon","mood":"calm"}]: an assistant answer
    with a field the schema does not declare. *)
Definition answer_with_mood : string :=
  ("{" ++ in_quotes "response" ++ ":" ++ in_quotes "Lisbon" ++ ","
       ++ in_quotes "mood" ++ ":" ++ in_quotes "calm" ++ "}")%string.

(** The text [{"suggestedActions":["Book a desk"],"response":"Lisbon"}]:
    an assistant answer with declared fields only. *)
Definition answer_with_actions : string :=
  ("{" ++ in_quotes "suggestedActions" ++ ":[" ++ in_quotes "Book a desk" ++ "],"
       ++ in_quotes "response" ++ ":" ++ in_quotes "Lisbon" ++ "}")%string.

(** The answer of the example scenario: one conflict, one solution. *)
Definition conflict_answer : string :=
  ("{" ++ in_quotes "hasConflict" ++ ":true,"
       ++ in_quotes "conflictDetails" ++ ":" ++ in_quotes "Overlapping" ++ ","
       ++ in_quotes "suggestedSolutions" ++ ":[{"
       ++ in_quotes "description" ++ ":" ++ in_quotes "Move call to 11:00" ++ ","
       ++ in_quotes "pros" ++ ":[" ++ in_quotes "No disruption" ++ "],"
       ++ in_quotes "cons" ++ ":[" ++ in_quotes "Later start" ++ "]}]}")%string.

Definition two_events : value :=
  VArr [VObj [("title", VStr "Client call"); ("start", VStr "2024-03-01T09:00Z")];
        VObj [("title", VStr "Flight to Lisbon");
              ("start", VStr "2024-03-01T09:30Z")]].

(** [JSON.stringify(two_events, null, 2)]. *)
Definition two_events_text : string := unlines [
  "[";
  "  {";
  ("    " ++ in_quotes "title" ++ ": " ++ in_quotes "Client call" ++ ",")%string;
  ("    " ++ in_quotes "start" ++ ": " ++ in_quotes "2024-03-01T09:00Z")%string;
  "  },";
  "  {";
  ("    " ++ in_quotes "title" ++ ": " ++ in_quotes "Flight to Lisbon" ++ ",")%string;
  ("    " ++ in_quotes "start" ++ ": " ++ in_quotes "2024-03-01T09:30Z")%string;
  "  }";
  "]"
].

(** A successful response whose single candidate carries the text [t]. *)
Definition reply (t : value) : Response :=
  mkResponse true 200 EmptyString
    (Some (VObj [("candidates",
                   VArr [VObj [("content",
                                 VObj [("parts", VArr [VObj [("text", t)]])])]])])).

(** A configured world whose service always answers [r], and a world with no
    credential. *)
Definition service (r : Response) : World :=
  mkWorld (Some "test-key") (fun _ _ => Resolved r).

Definition unconfigured : World :=
  mkWorld None (fun _ _ => Rejected "unreachable").

(** [instanceof ZodError]. *)
Definition is_validation_error (e : exn) : bool :=
  match e with ZodError _ => true | _ => false end.

(** The text the Gateway extracts from the body of a successful response,
    when it gets as far as [JSON.parse]. *)
Definition extracted_text (data : value) : option value :=
  match get_named data "candidates" with
  | inl _ => None
  | inr candidates =>
      if negb (truthy candidates) || length_is_0 candidates then None
      else
        match textContent_of candidates with
        | inl _ => None
        | inr textContent => Some textContent
        end
  end.

(** The log after one request and, when the call failed, the error printed
    by the [catch] clause. *)
Definition sent (r : Request) (l : Log) : Log :=
  mkLog (network l ++ [r]) (console l).

Definition printed (e : exn) (l : Log) : Log :=
  mkLog (network l) (console l ++ [e]).

(** The requests a computation adds to the log. *)
Definition requests_of {A : Type} (c : M A) (l : Log) : list Request :=
  skipn (List.length (network l)) (network (snd (c l))).

(** The number of requests a computation adds to the log. *)
Definition calls_issued {A : Type} (c : M A) (l : Log) : nat :=
  List.length (network (snd (c l))) - List.length (network l).

(** * Properties *)

Unset Implicit Arguments.

(** ** Association lists *)

Lemma assoc_set_prop {A : Type} (k k' : string) (v : A) (fs : list (string * A)) :
  assoc k (set_prop k' v fs) = if String.eqb k k' then Some v else assoc k fs.
Proof.
  induction fs as [|[k0 v0] rest IH]; simpl.
  - reflexivity.
  - destruct (String.eqb_spec k' k0) as [->|Hne]; simpl.
    + destruct (String.eqb k k0); reflexivity.
    + rewrite IH. destruct (String.eqb_spec k k0) as [->|Hne'].
      * destruct (String.eqb_spec k0 k'); [congruence|reflexivity].
      * reflexivity.
Qed.

Lemma assoc_spread {A : Type} (k : string) (extra base : list (string * A)) :
  distinct_keys extra = true ->
  assoc k (spread base extra)
  = match assoc k extra with Some v => Some v | None => assoc k base end.
Proof.
  unfold spread. revert base.
  induction extra as [|[k0 v0] rest IH]; intros base Hd; simpl in *.
  - reflexivity.
  - apply andb_true_iff in Hd as [Hk Hd].
    rewrite (IH _ Hd), assoc_set_prop.
    destruct (String.eqb_spec k k0) as [->|Hne].
    + unfold has_key in Hk. destruct (assoc k0 rest); [discriminate|reflexivity].
    + reflexivity.
Qed.

Lemma assoc_In {A : Type} k (fs : list (string * A)) x :
  assoc k fs = Some x -> In (k, x) fs.
Proof.
  induction fs as [|[k0 x0] rest IH]; simpl; [discriminate|].
  destruct (String.eqb_spec k k0) as [->|Hne].
  - intros [= ->]. now left.
  - intros H. right. now apply IH.
Qed.

Lemma In_has_key {A : Type} k (fs : list (string * A)) x :
  In (k, x) fs -> has_key k fs = true.
Proof.
  unfold has_key. induction fs as [|[k0 x0] rest IH]; simpl; [tauto|].
  intros [[= -> ->]|Hin].
  - now rewrite String.eqb_refl.
  - destruct (String.eqb k k0); [reflexivity|now apply IH].
Qed.

Lemma has_key_assoc {A : Type} k (fs : list (string * A)) :
  has_key k fs = true -> exists x, assoc k fs = Some x.
Proof. unfold has_key. destruct (assoc k fs) as [x|]; [now exists x|discriminate]. Qed.

Lemma In_assoc {A : Type} k (fs : list (string * A)) x :
  distinct_keys fs = true -> In (k, x) fs -> assoc k fs = Some x.
Proof.
  induction fs as [|[k0 x0] rest IH]; simpl; [tauto|].
  intros Hd [[= -> ->]|Hin].
  - now rewrite String.eqb_refl.
  - apply andb_true_iff in Hd as [Hk Hd].
    destruct (String.eqb_spec k k0) as [->|Hne]; [|now apply IH].
    rewrite (In_has_key k0 rest x Hin) in Hk. discriminate.
Qed.

Lemma field_absent k fields : has_key k fields = false -> field k fields = VUndefined.
Proof. unfold has_key, field. now destruct (assoc k fields). Qed.

(** ** The validator *)

Lemma issues_of_finish issues output :
  issues_of (finish issues output) = issues.
Proof. destruct issues; reflexivity. Qed.

Lemma finish_OK issues output v :
  finish issues output = OK v <-> issues = [] /\ v = output.
Proof.
  destruct issues; simpl; split.
  - intros [= <-]. auto.
  - intros [_ ->]. reflexivity.
  - discriminate.
  - intros [[=] _].
Qed.

Lemma parse_array_issues element items :
  issues_of (_parse (ZodArray element) (VArr items))
  = fst (parse_items (_parse element) 0 items).
Proof.
  simpl. destruct (parse_items (_parse element) 0 items) as [iss vs].
  apply issues_of_finish.
Qed.

Lemma parse_object_issues shape fields :
  issues_of (_parse (ZodObject shape) (VObj fields))
  = fst (parse_pairs _parse fields shape).
Proof.
  simpl. destruct (parse_pairs _parse fields shape) as [iss out].
  apply issues_of_finish.
Qed.

(** An issue of an item is an issue of the array, under the item's index. *)
Lemma parse_items_issue parse_item items : forall i j x issue,
  nth_error items i = Some x ->
  In issue (issues_of (parse_item x)) ->
  In (under (at_index (j + i)) issue) (fst (parse_items parse_item j items)).
Proof.
  induction items as [|y rest IH]; intros i j x issue Hnth Hin.
  - destruct i; discriminate.
  - simpl. destruct (parse_items parse_item (S j) rest) as [iss vs] eqn:Hrest.
    simpl. apply in_or_app. destruct i as [|i]; simpl in Hnth.
    + injection Hnth as ->. left. rewrite Nat.add_0_r. now apply in_map.
    + right. specialize (IH i (S j) x issue Hnth Hin).
      rewrite Hrest in IH. simpl in IH.
      now replace (j + S i) with (S j + i) by lia.
Qed.

Lemma parse_pairs_cons parse_key fields k kt rest :
  parse_pairs parse_key fields ((k, kt) :: rest)
  = (map (under (at_key k)) (issues_of (parse_key kt (field k fields)))
       ++ fst (parse_pairs parse_key fields rest),
     match parse_key kt (field k fields) with
     | OK v => keep_pair k fields v (snd (parse_pairs parse_key fields rest))
     | INVALID _ => snd (parse_pairs parse_key fields rest)
     end).
Proof.
  change (parse_pairs parse_key fields ((k, kt) :: rest))
    with (let r := parse_key kt (field k fields) in
          let '(iss, out) := parse_pairs parse_key fields rest in
          (map (under (at_key k)) (issues_of r) ++ iss,
           match r with OK v => keep_pair k fields v out | INVALID _ => out end)).
  cbv zeta. now destruct (parse_pairs parse_key fields rest).
Qed.

Lemma parse_items_cons parse_item i x rest :
  parse_items parse_item i (x :: rest)
  = (map (under (at_index i)) (issues_of (parse_item x))
       ++ fst (parse_items parse_item (S i) rest),
     match parse_item x with
     | OK v => v :: snd (parse_items parse_item (S i) rest)
     | INVALID _ => snd (parse_items parse_item (S i) rest)
     end).
Proof. simpl. now destruct (parse_items parse_item (S i) rest). Qed.

(** An issue of a declared key is an issue of the object, under the key. *)
Lemma parse_pairs_issue parse_key fields shape : forall k kt issue,
  In (k, kt) shape ->
  In issue (issues_of (parse_key kt (field k fields))) ->
  In (under (at_key k) issue) (fst (parse_pairs parse_key fields shape)).
Proof.
  induction shape as [|[k0 kt0] rest IH]; intros k kt issue Hin Hissue.
  - destruct Hin.
  - rewrite parse_pairs_cons.
    simpl. apply in_or_app. destruct Hin as [[= -> ->]|Hin].
    + left. now apply in_map.
    + right. exact (IH k kt issue Hin Hissue).
Qed.

Lemma issue_makes_invalid r issue :
  In issue (issues_of r) -> exists issues, r = INVALID issues /\ In issue issues.
Proof.
  destruct r as [v|issues]; simpl; intros H; [destruct H|].
  exists issues. auto.
Qed.

Lemma parse_array_issue element items i x issue :
  nth_error items i = Some x ->
  In issue (issues_of (_parse element x)) ->
  In (under (at_index i) issue) (issues_of (_parse (ZodArray element) (VArr items))).
Proof.
  intros Hnth Hin. rewrite parse_array_issues.
  exact (parse_items_issue (_parse element) items i 0 x issue Hnth Hin).
Qed.

Lemma parse_object_issue shape fields k kt issue :
  In (k, kt) shape ->
  In issue (issues_of (_parse kt (field k fields))) ->
  In (under (at_key k) issue) (issues_of (_parse (ZodObject shape) (VObj fields))).
Proof.
  intros Hin Hissue. rewrite parse_object_issues.
  exact (parse_pairs_issue _parse fields shape k kt issue Hin Hissue).
Qed.

Lemma field_assoc k fields x : assoc k fields = Some x -> field k fields = x.
Proof. unfold field. now intros ->. Qed.

(** A number below the minimum or above the maximum raises an issue. *)
Lemma parse_bounded_number lo hi r :
  PrimFloat.ltb r lo = true \/ PrimFloat.ltb hi r = true ->
  exists c,
    In (issue_here c)
       (issues_of (_parse (z.max hi (z.min lo z.number)) (VNum r))).
Proof.
  intros Hout. simpl.
  destruct (PrimFloat.is_nan r).
  - eexists. left. reflexivity.
  - rewrite issues_of_finish. simpl. rewrite app_nil_r.
    destruct Hout as [H|H]; rewrite H.
    + eexists. left. reflexivity.
    + destruct (PrimFloat.ltb r lo); eexists; simpl; auto.
Qed.

(** A required schema rejects [undefined]. *)
Lemma parse_required_undefined t :
  is_required t = true ->
  exists expected,
    _parse t VUndefined = INVALID [issue_here (invalid_type expected zt_undefined)].
Proof.
  destruct t; simpl; intros H; try discriminate; eexists; reflexivity.
Qed.

(** A value that lacks a required key fails validation, with an issue that
    reports [undefined] where the key was expected. *)
Lemma lacks_required_issue : forall t v,
  lacks_required t v = true ->
  exists expected p,
    In (mkIssue (invalid_type expected zt_undefined) p) (issues_of (_parse t v)).
Proof.
  induction t as [| | | |element IH|shape IH|innerType IH]
    using ZodType_nested_ind; intros v Hlack; try discriminate.
  - (* array *)
    destruct v as [| | | | |items|]; try discriminate. simpl in Hlack.
    apply existsb_exists in Hlack as (x & Hin & Hx).
    destruct (IH x Hx) as (expected & p & Hissue).
    apply In_nth_error in Hin as [i Hnth].
    exists expected, (at_index i :: p).
    exact (parse_array_issue element items i x
             (mkIssue (invalid_type expected zt_undefined) p) Hnth Hissue).
  - (* object *)
    destruct v as [| | | | | |fields]; try discriminate. simpl in Hlack.
    apply existsb_exists in Hlack as ([k kt] & Hin & Hk). simpl in Hk.
    rewrite Forall_forall in IH.
    destruct (assoc k fields) as [x|] eqn:Hassoc.
    + destruct (IH (k, kt) Hin x Hk) as (expected & p & Hissue).
      exists expected, (at_key k :: p).
      refine (parse_object_issue shape fields k kt
                (mkIssue (invalid_type expected zt_undefined) p) Hin _).
      now rewrite (field_assoc k fields x Hassoc).
    + destruct (parse_required_undefined kt Hk) as [expected Hparse].
      exists expected, [at_key k].
      refine (parse_object_issue shape fields k kt
                (issue_here (invalid_type expected zt_undefined)) Hin _).
      unfold field. rewrite Hassoc, Hparse. now left.
  - (* optional *)
    destruct v; try discriminate; simpl in *; now apply IH.
Qed.

(** *** What the two loops return when nothing fails *)

Lemma finish_no_issue issues output :
  issues_of (finish issues output) = [] -> finish issues output = OK output.
Proof. rewrite issues_of_finish. now intros ->. Qed.

(** A parse that raised no issue succeeded. *)
Lemma parse_no_issue : forall t v,
  issues_of (_parse t v) = [] -> exists output, _parse t v = OK output.
Proof.
  induction t as [| | | |element _|shape|innerType IH]; intros v;
    try (destruct v; simpl; intros H; try discriminate; eexists; reflexivity).
  - (* number *)
    destruct v as [| | |n| | |]; simpl; try discriminate.
    destruct (PrimFloat.is_nan n); [discriminate|].
    intros H. eexists. exact (finish_no_issue _ _ H).
  - (* enum *)
    destruct v as [| | | |s| |]; simpl; try discriminate.
    destruct (existsb (String.eqb s) values); [|discriminate].
    intros _. eexists. reflexivity.
  - (* array *)
    destruct v as [| | | | |items|]; simpl; try discriminate.
    destruct (parse_items (_parse element) 0 items) as [iss vs].
    intros H. eexists. exact (finish_no_issue _ _ H).
  - (* object *)
    destruct v as [| | | | | |fields]; simpl; try discriminate.
    destruct (parse_pairs _parse fields shape) as [iss out].
    intros H. eexists. exact (finish_no_issue _ _ H).
  - (* optional *)
    destruct v; simpl; try apply IH. intros _. eexists. reflexivity.
Qed.

Lemma parse_items_ok parse_item (Q : value -> value -> Prop) items : forall i,
  (forall x, In x items -> exists v, parse_item x = OK v /\ Q x v) ->
  exists vs, parse_items parse_item i items = ([], vs) /\ Forall2 Q items vs.
Proof.
  induction items as [|x rest IH]; intros i Hall.
  - exists []. split; [reflexivity|constructor].
  - destruct (Hall x (or_introl eq_refl)) as (v & Hx & Hq).
    destruct (IH (S i) (fun y Hy => Hall y (or_intror Hy))) as (vs & Hrest & Hqs).
    exists (v :: vs). rewrite parse_items_cons, Hx, Hrest. simpl.
    split; [reflexivity|now constructor].
Qed.

Lemma parse_pairs_ok parse_key fields shape :
  (forall k kt, In (k, kt) shape ->
     exists v, parse_key kt (field k fields) = OK v) ->
  fst (parse_pairs parse_key fields shape) = [].
Proof.
  induction shape as [|[k kt] rest IH]; intros Hall; [reflexivity|].
  rewrite parse_pairs_cons. simpl.
  destruct (Hall k kt (or_introl eq_refl)) as [v ->]. simpl.
  apply IH. intros k' kt' Hin. apply (Hall k' kt'). now right.
Qed.

(** Every pair of the output comes from a key of the shape whose value was
    accepted, and was kept for a reason. *)
Lemma parse_pairs_kept parse_key fields shape k y :
  In (k, y) (snd (parse_pairs parse_key fields shape)) ->
  exists kt,
    In (k, kt) shape
    /\ parse_key kt (field k fields) = OK y
    /\ (y = VUndefined -> has_key k fields = true).
Proof.
  induction shape as [|[k0 kt0] rest IH]; [intros []|].
  rewrite parse_pairs_cons. simpl.
  assert (Hrest : In (k, y) (snd (parse_pairs parse_key fields rest)) ->
                  exists kt, In (k, kt) ((k0, kt0) :: rest)
                    /\ parse_key kt (field k fields) = OK y
                    /\ (y = VUndefined -> has_key k fields = true)).
  { intros Hin. destruct (IH Hin) as (kt & H1 & H2 & H3).
    exists kt. split; [now right|now split]. }
  destruct (parse_key kt0 (field k0 fields)) as [v|iss] eqn:Hk0; [|exact Hrest].
  assert (Hhead : (k0, v) = (k, y) -> (v = VUndefined -> has_key k0 fields = true) ->
                  exists kt, In (k, kt) ((k0, kt0) :: rest)
                    /\ parse_key kt (field k fields) = OK y
                    /\ (y = VUndefined -> has_key k fields = true)).
  { intros [= -> ->] Hkeep. exists kt0. split; [now left|now split]. }
  unfold keep_pair. destruct v; try (intros [Heq|Hin]; [apply Hhead; [exact Heq|discriminate]|now apply Hrest]).
  destruct (has_key k0 fields) eqn:Hkey; [|exact Hrest].
  intros [Heq|Hin]; [now apply Hhead|now apply Hrest].
Qed.

Lemma parse_pairs_no_new_key parse_key fields shape k :
  has_key k shape = false ->
  has_key k (snd (parse_pairs parse_key fields shape)) = false.
Proof.
  intros Hk. destruct (has_key k (snd (parse_pairs parse_key fields shape))) eqn:H;
    [|reflexivity].
  apply has_key_assoc in H as [y Hy]. apply assoc_In in Hy.
  destruct (parse_pairs_kept _ _ _ _ _ Hy) as (kt & Hin & _).
  rewrite (In_has_key k shape kt Hin) in Hk. discriminate.
Qed.

(** With distinct keys in the shape, the output read at a declared key is
    the validated value of that key. *)
Lemma parse_pairs_field parse_key fields shape k kt v :
  distinct_keys shape = true ->
  In (k, kt) shape ->
  parse_key kt (field k fields) = OK v ->
  (has_key k fields = false -> v = VUndefined) ->
  field k (snd (parse_pairs parse_key fields shape)) = v
  /\ (has_key k fields = true ->
      assoc k (snd (parse_pairs parse_key fields shape)) = Some v).
Proof.
  induction shape as [|[k0 kt0] rest IH]; [intros _ []|].
  intros Hd Hin Hv Hundef. simpl in Hd. apply andb_true_iff in Hd as [Hk0 Hd].
  apply negb_true_iff in Hk0.
  rewrite parse_pairs_cons. simpl.
  destruct Hin as [[= -> ->]|Hin].
  - rewrite Hv.
    pose proof (parse_pairs_no_new_key parse_key fields rest k Hk0) as Hnone.
    unfold keep_pair.
    assert (Hcons : field k ((k, v) :: snd (parse_pairs parse_key fields rest)) = v
                    /\ (has_key k fields = true ->
                        assoc k ((k, v) :: snd (parse_pairs parse_key fields rest))
                        = Some v)).
    { unfold field. simpl. rewrite String.eqb_refl. auto. }
    destruct v; try exact Hcons.
    destruct (has_key k fields); [exact Hcons|].
    split; [now apply field_absent|discriminate].
  - assert (Hne : String.eqb k k0 = false).
    { destruct (String.eqb_spec k k0) as [->|]; [|reflexivity].
      rewrite (In_has_key k0 rest kt Hin) in Hk0. discriminate. }
    destruct (IH Hd Hin Hv Hundef) as [IH1 IH2].
    assert (Hskip : forall x,
               field k ((k0, x) :: snd (parse_pairs parse_key fields rest)) = v
               /\ (has_key k fields = true ->
                   assoc k ((k0, x) :: snd (parse_pairs parse_key fields rest))
                   = Some v)).
    { intros x. unfold field in *. simpl. rewrite Hne. auto. }
    destruct (parse_key kt0 (field k0 fields)) as [v0|]; [|auto].
    unfold keep_pair. destruct v0; try apply Hskip.
    destruct (has_key k0 fields); [apply Hskip|auto].
Qed.

Lemma parse_undefined_output t y : _parse t VUndefined = OK y -> y = VUndefined.
Proof. destruct t; simpl; try discriminate. now intros [= <-]. Qed.

Lemma only_declared_undefined t : only_declared t VUndefined = true.
Proof. induction t; simpl; auto. Qed.

(** *** Deep equality *)

Lemma same_number_refl n : same_number n n = true.
Proof.
  unfold same_number, PrimFloat.is_nan.
  destruct (PrimFloat.eqb n n); reflexivity.
Qed.

Lemma same_items_Forall2 xs ys :
  Forall2 (fun x y => same_value x y = true) xs ys ->
  same_value (VArr xs) (VArr ys) = true.
Proof.
  induction 1 as [|x y xs ys Hxy _ IH]; simpl; [reflexivity|].
  simpl in IH. now rewrite Hxy, IH.
Qed.

(** *** Conforming values *)

Lemma checks_hold_no_issue n checks :
  forallb (check_holds n) checks = true -> flat_map (run_check n) checks = [].
Proof.
  induction checks as [|c rest IH]; simpl; [reflexivity|].
  intros H. apply andb_true_iff in H as [Hc Hrest].
  rewrite (IH Hrest), app_nil_r.
  destruct c; simpl in *; apply negb_true_iff in Hc; now rewrite Hc.
Qed.

(** A value that conforms to a schema is accepted; the output has no key
    beyond the declared ones; and when the input had none either, and no
    repeated key, the output is deep-equal to the input. *)
Lemma parse_conforming : forall t,
  shapes_distinct t = true ->
  forall v,
    conforms t v = true ->
    exists v',
      _parse t v = OK v'
      /\ only_declared t v' = true
      /\ (objects_distinct v = true -> only_declared t v = true ->
          same_value v v' = true).
Proof.
  induction t as [| | | |element IH|shape IH|innerType IH]
    using ZodType_nested_ind; intros Hshape v Hconf.
  - (* string *)
    destruct v as [| | | |s| |]; try discriminate.
    exists (VStr s). simpl. rewrite String.eqb_refl. auto.
  - (* number *)
    destruct v as [| | |n| | |]; try discriminate. simpl in Hconf.
    apply andb_true_iff in Hconf as [Hnan Hchecks].
    apply negb_true_iff in Hnan.
    exists (VNum n). simpl.
    rewrite Hnan, (checks_hold_no_issue n checks Hchecks), same_number_refl.
    auto.
  - (* boolean *)
    destruct v as [| |b| | | |]; try discriminate.
    exists (VBool b). simpl. rewrite Bool.eqb_reflx. auto.
  - (* enum *)
    destruct v as [| | | |s| |]; try discriminate. simpl in Hconf.
    exists (VStr s). simpl. rewrite Hconf, String.eqb_refl. auto.
  - (* array *)
    destruct v as [| | | | |items|]; try discriminate. simpl in Hconf, Hshape.
    rewrite forallb_forall in Hconf.
    destruct (parse_items_ok (_parse element)
                (fun x v' =>
                   only_declared element v' = true
                   /\ (objects_distinct x = true ->
                       only_declared element x = true ->
                       same_value x v' = true))
                items 0) as (vs & Hparse & Hall).
    { intros x Hx. exact (IH Hshape x (Hconf x Hx)). }
    exists (VArr vs). simpl. rewrite Hparse. simpl.
    split; [reflexivity|]. split.
    + apply forallb_forall. intros y Hy.
      clear - Hall Hy. induction Hall as [|x y' xs ys [Hd _] _ IHall];
        [destruct Hy|].
      destruct Hy as [<-|Hy]; [exact Hd|exact (IHall Hy)].
    + intros Hdist Hdecl.
      rewrite forallb_forall in Hdist, Hdecl.
      apply same_items_Forall2.
      clear - Hall Hdist Hdecl.
      induction Hall as [|x y xs ys [_ Hsame] _ IHall]; constructor.
      * apply Hsame; [apply Hdist|apply Hdecl]; now left.
      * apply IHall; intros z Hz; [apply Hdist|apply Hdecl]; now right.
  - (* object *)
    destruct v as [| | | | | |fields]; try discriminate. simpl in Hconf, Hshape.
    apply andb_true_iff in Hshape as [Hkeys Hshapes].
    rewrite forallb_forall in Hconf, Hshapes. rewrite Forall_forall in IH.
    assert (Hkey : forall k kt, In (k, kt) shape ->
              exists v', _parse kt (field k fields) = OK v'
                /\ only_declared kt v' = true
                /\ (objects_distinct (field k fields) = true ->
                    only_declared kt (field k fields) = true ->
                    same_value (field k fields) v' = true)).
    { intros k kt Hin.
      exact (IH (k, kt) Hin (Hshapes (k, kt) Hin) _ (Hconf (k, kt) Hin)). }
    assert (Hread : forall k kt, In (k, kt) shape ->
              exists v', _parse kt (field k fields) = OK v'
                /\ only_declared kt v' = true
                /\ (objects_distinct (field k fields) = true ->
                    only_declared kt (field k fields) = true ->
                    same_value (field k fields) v' = true)
                /\ field k (snd (parse_pairs _parse fields shape)) = v'
                /\ (has_key k fields = true ->
                    assoc k (snd (parse_pairs _parse fields shape)) = Some v')).
    { intros k kt Hin. destruct (Hkey k kt Hin) as (v' & Hv' & Hd & Hs).
      exists v'. repeat split; try assumption;
        apply (parse_pairs_field _parse fields shape k kt v' Hkeys Hin Hv');
        try assumption;
        intros Habsent; rewrite (field_absent k fields Habsent) in Hv';
        exact (parse_undefined_output kt v' Hv'). }
    exists (VObj (snd (parse_pairs _parse fields shape))).
    split; [|split].
    + simpl. destruct (parse_pairs _parse fields shape) as [iss out] eqn:Hpairs.
      replace iss with (fst (parse_pairs _parse fields shape))
        by now rewrite Hpairs.
      rewrite parse_pairs_ok; [reflexivity|].
      intros k kt Hin. destruct (Hkey k kt Hin) as (v' & Hv' & _). now exists v'.
    + simpl. apply andb_true_iff. split; apply forallb_forall.
      * intros [k y] Hin. simpl.
        destruct (parse_pairs_kept _ _ _ _ _ Hin) as (kt & Hkt & _).
        exact (In_has_key k shape kt Hkt).
      * intros [k kt] Hin. simpl.
        destruct (Hread k kt Hin) as (v' & _ & Hd & _ & Hfield & _).
        now rewrite Hfield.
    + intros Hdist Hdecl. simpl in Hdist, Hdecl.
      apply andb_true_iff in Hdist as [Hfkeys Hfdist].
      apply andb_true_iff in Hdecl as [Hfdecl Hsdecl].
      rewrite forallb_forall in Hfdist, Hfdecl, Hsdecl.
      simpl. apply andb_true_iff. split; apply forallb_forall.
      * intros [k x] Hin. simpl.
        destruct (has_key_assoc k shape (Hfdecl (k, x) Hin)) as [kt Hkt].
        apply assoc_In in Hkt.
        destruct (Hread k kt Hkt) as (v' & _ & _ & Hsame & _ & Hassoc).
        rewrite (Hassoc (In_has_key k fields x Hin)).
        pose proof (In_assoc k fields x Hfkeys Hin) as Hx.
        rewrite (field_assoc k fields x Hx) in Hsame.
        apply Hsame; [exact (Hfdist (k, x) Hin)|].
        specialize (Hsdecl (k, kt) Hkt). simpl in Hsdecl.
        now rewrite (field_assoc k fields x Hx) in Hsdecl.
      * intros [k y] Hin. simpl.
        destruct (parse_pairs_kept _ _ _ _ _ Hin) as (kt & Hkt & Hy & Hkeep).
        destruct (has_key k fields) eqn:Hk; [reflexivity|].
        rewrite (field_absent k fields Hk) in Hy.
        apply Hkeep. exact (parse_undefined_output kt y Hy).
  - (* optional *)
    destruct v;
      try (simpl in *; destruct (IH Hshape _ Hconf) as (v' & H1 & H2 & H3);
           exists v'; auto).
    exists VUndefined. simpl. rewrite only_declared_undefined. auto.
Qed.

Lemma no_issue_checks_hold n checks :
  flat_map (run_check n) checks = [] -> forallb (check_holds n) checks = true.
Proof.
  induction checks as [|c rest IH]; simpl; [reflexivity|].
  intros H. apply app_eq_nil in H as [Hc Hrest]. rewrite (IH Hrest), andb_true_r.
  destruct c as [m|m]; simpl in *.
  - destruct (PrimFloat.ltb n m); [discriminate|reflexivity].
  - destruct (PrimFloat.ltb m n); [discriminate|reflexivity].
Qed.

Lemma map_under_nil p issues : map (under p) issues = [] -> issues = [].
Proof. now destruct issues. Qed.

Lemma parse_items_no_issue parse_item items : forall i,
  fst (parse_items parse_item i items) = [] ->
  forall x, In x items -> issues_of (parse_item x) = [].
Proof.
  induction items as [|y rest IH]; intros i H x Hx; [destruct Hx|].
  rewrite parse_items_cons in H. simpl in H.
  apply app_eq_nil in H as [Hy Hrest].
  destruct Hx as [<-|Hx]; [exact (map_under_nil _ _ Hy)|exact (IH (S i) Hrest x Hx)].
Qed.

Lemma parse_pairs_no_issue parse_key fields shape :
  fst (parse_pairs parse_key fields shape) = [] ->
  forall k kt, In (k, kt) shape -> issues_of (parse_key kt (field k fields)) = [].
Proof.
  induction shape as [|[k0 kt0] rest IH]; intros H k kt Hin; [destruct Hin|].
  rewrite parse_pairs_cons in H. simpl in H.
  apply app_eq_nil in H as [Hk0 Hrest].
  destruct Hin as [[= <- <-]|Hin];
    [exact (map_under_nil _ _ Hk0)|exact (IH Hrest k kt Hin)].
Qed.

(** Only conforming values are accepted: [conforms] is the set of values
    the validator lets through. *)
Lemma accepted_conforms : forall t v v', _parse t v = OK v' -> conforms t v = true.
Proof.
  induction t as [| | | |element IH|shape IH|innerType IH]
    using ZodType_nested_ind; intros v v' Hparse.
  - destruct v; try discriminate. reflexivity.
  - destruct v as [| | |n| | |]; try discriminate. simpl in *.
    destruct (PrimFloat.is_nan n); [discriminate|].
    apply finish_OK in Hparse as [Hnone _].
    now rewrite (no_issue_checks_hold n checks Hnone).
  - destruct v; try discriminate. reflexivity.
  - destruct v as [| | | |s| |]; try discriminate. simpl in *.
    now destruct (existsb (String.eqb s) values).
  - destruct v as [| | | | |items|]; try discriminate. simpl in *.
    destruct (parse_items (_parse element) 0 items) as [iss vs] eqn:Hitems.
    apply finish_OK in Hparse as [-> _].
    apply forallb_forall. intros x Hx.
    assert (Hnone : issues_of (_parse element x) = []).
    { apply (parse_items_no_issue (_parse element) items 0); [|exact Hx].
      now rewrite Hitems. }
    destruct (parse_no_issue element x Hnone) as [y Hy]. exact (IH x y Hy).
  - destruct v as [| | | | | |fields]; try discriminate. simpl in *.
    destruct (parse_pairs _parse fields shape) as [iss out] eqn:Hpairs.
    apply finish_OK in Hparse as [-> _].
    rewrite Forall_forall in IH.
    apply forallb_forall. intros [k kt] Hin. simpl.
    assert (Hnone : issues_of (_parse kt (field k fields)) = []).
    { apply (parse_pairs_no_issue _parse fields shape); [|exact Hin].
      now rewrite Hpairs. }
    destruct (parse_no_issue kt _ Hnone) as [y Hy].
    exact (IH (k, kt) Hin _ y Hy).
  - destruct v; simpl in *; try exact (IH _ _ Hparse). reflexivity.
Qed.


Lemma has_key_cons {A : Type} k k0 (x : A) rest :
  has_key k ((k0, x) :: rest) = String.eqb k k0 || has_key k rest.
Proof. unfold has_key. simpl. now destruct (String.eqb k k0). Qed.

(** *** What an accepted value looks like *)

Lemma parse_items_accepted parse_item items : forall i,
  (forall x, issues_of (parse_item x) = [] -> exists y, parse_item x = OK y) ->
  fst (parse_items parse_item i items) = [] ->
  Forall2 (fun x y => parse_item x = OK y) items
    (snd (parse_items parse_item i items)).
Proof.
  induction items as [|x rest IH]; intros i Hhonest Hnone; [constructor|].
  rewrite parse_items_cons in *. simpl in *.
  apply app_eq_nil in Hnone as [Hx Hrest].
  destruct (Hhonest x (map_under_nil _ _ Hx)) as [y Hy].
  rewrite Hy. constructor; [exact Hy|exact (IH (S i) Hhonest Hrest)].
Qed.

Lemma parse_items_fixed parse_item vs : forall i,
  Forall (fun y => parse_item y = OK y) vs ->
  parse_items parse_item i vs = ([], vs).
Proof.
  induction vs as [|y rest IH]; intros i Hall; [reflexivity|].
  inversion Hall as [|? ? Hy Hrest]; subst.
  now rewrite parse_items_cons, Hy, (IH (S i) Hrest).
Qed.

Lemma parse_array_accepted element items v' :
  _parse (ZodArray element) (VArr items) = OK v' ->
  exists vs, v' = VArr vs /\ Forall2 (fun x y => _parse element x = OK y) items vs.
Proof.
  simpl. destruct (parse_items (_parse element) 0 items) as [iss vs] eqn:Hitems.
  intros H. apply finish_OK in H as [-> ->].
  exists vs. split; [reflexivity|].
  replace vs with (snd (parse_items (_parse element) 0 items))
    by now rewrite Hitems.
  apply parse_items_accepted; [apply parse_no_issue|now rewrite Hitems].
Qed.

Lemma parse_object_accepted shape fields v' :
  _parse (ZodObject shape) (VObj fields) = OK v' ->
  v' = VObj (snd (parse_pairs _parse fields shape))
  /\ forall k kt, In (k, kt) shape ->
       exists v, _parse kt (field k fields) = OK v.
Proof.
  simpl. destruct (parse_pairs _parse fields shape) as [iss out] eqn:Hpairs.
  intros H. apply finish_OK in H as [-> ->].
  split; [reflexivity|].
  intros k kt Hin. apply parse_no_issue.
  apply (parse_pairs_no_issue _parse fields shape); [now rewrite Hpairs|exact Hin].
Qed.

Lemma parse_pairs_has_key parse_key fields shape k kt v :
  In (k, kt) shape ->
  parse_key kt (field k fields) = OK v ->
  has_key k fields = true ->
  has_key k (snd (parse_pairs parse_key fields shape)) = true.
Proof.
  induction shape as [|[k0 kt0] rest IH]; [intros []|].
  intros Hin Hv Hk. rewrite parse_pairs_cons. simpl.
  destruct Hin as [[= -> ->]|Hin].
  - rewrite Hv. unfold keep_pair. rewrite Hk.
    destruct v; rewrite has_key_cons, String.eqb_refl; reflexivity.
  - specialize (IH Hin Hv Hk).
    destruct (parse_key kt0 (field k0 fields)) as [v0|]; [|exact IH].
    unfold keep_pair.
    destruct v0; try (rewrite has_key_cons, IH; apply orb_true_r).
    destruct (has_key k0 fields); [|exact IH].
    rewrite has_key_cons, IH. apply orb_true_r.
Qed.

(** Re-parsing against the shape an object that holds, at every key of the
    shape, the accepted value of that key. *)
Lemma parse_pairs_again fields fields2 shape :
  (forall k kt, In (k, kt) shape ->
     exists v,
       _parse kt (field k fields) = OK v
       /\ field k fields2 = v
       /\ _parse kt v = OK v
       /\ (v = VUndefined -> has_key k fields2 = has_key k fields)) ->
  parse_pairs _parse fields2 shape = ([], snd (parse_pairs _parse fields shape)).
Proof.
  induction shape as [|[k kt] rest IH]; intros Hall; [reflexivity|].
  rewrite !parse_pairs_cons.
  destruct (Hall k kt (or_introl eq_refl)) as (v & Hv & Hfield & Hagain & Hkey).
  rewrite (IH (fun k' kt' Hin => Hall k' kt' (or_intror Hin))).
  rewrite Hfield, Hv, Hagain. simpl.
  unfold keep_pair. destruct v; try reflexivity.
  now rewrite (Hkey eq_refl).
Qed.

(** A validated value passes validation again, unchanged. *)
Lemma parse_idempotent : forall t,
  shapes_distinct t = true ->
  forall v v', _parse t v = OK v' -> _parse t v' = OK v'.
Proof.
  induction t as [| | | |element IH|shape IH|innerType IH]
    using ZodType_nested_ind; intros Hshape v v' Hparse.
  - destruct v; try discriminate. now injection Hparse as <-.
  - destruct v as [| | |n| | |]; try discriminate.
    pose proof Hparse as Hsame. simpl in Hsame.
    destruct (PrimFloat.is_nan n); [discriminate|].
    apply finish_OK in Hsame as [_ ->]. exact Hparse.
  - destruct v; try discriminate. now injection Hparse as <-.
  - destruct v as [| | | |s| |]; try discriminate.
    pose proof Hparse as Hsame. simpl in Hsame.
    destruct (existsb (String.eqb s) values); [|discriminate].
    injection Hsame as <-. exact Hparse.
  - (* array *)
    destruct v as [| | | | |items|]; try discriminate.
    destruct (parse_array_accepted element items v' Hparse) as (vs & -> & Hall).
    simpl in Hshape. simpl.
    rewrite (parse_items_fixed (_parse element) vs 0); [reflexivity|].
    clear Hparse. induction Hall as [|x y xs ys Hxy _ IHall]; constructor.
    + exact (IH Hshape x y Hxy).
    + exact IHall.
  - (* object *)
    destruct v as [| | | | | |fields]; try discriminate.
    destruct (parse_object_accepted shape fields v' Hparse) as [-> Hkeys].
    simpl in Hshape. apply andb_true_iff in Hshape as [Hdistinct Hshapes].
    rewrite forallb_forall in Hshapes. rewrite Forall_forall in IH.
    simpl.
    rewrite (parse_pairs_again fields (snd (parse_pairs _parse fields shape)) shape);
      [reflexivity|].
    intros k kt Hin. destruct (Hkeys k kt Hin) as [x Hx].
    assert (Hundef : has_key k fields = false -> x = VUndefined).
    { intros Habsent. rewrite (field_absent k fields Habsent) in Hx.
      exact (parse_undefined_output kt x Hx). }
    destruct (parse_pairs_field _parse fields shape k kt x Hdistinct Hin Hx Hundef)
      as [Hfield Hassoc].
    exists x. split; [exact Hx|]. split; [exact Hfield|].
    split; [exact (IH (k, kt) Hin (Hshapes (k, kt) Hin) _ x Hx)|].
    intros _. destruct (has_key k fields) eqn:Hk.
    + exact (parse_pairs_has_key _parse fields shape k kt x Hin Hx Hk).
    + destruct (has_key k (snd (parse_pairs _parse fields shape))) eqn:Hout;
        [|reflexivity].
      apply has_key_assoc in Hout as [y Hy]. apply assoc_In in Hy.
      destruct (parse_pairs_kept _ _ _ _ _ Hy) as (kt' & _ & Hy' & Hkeep).
      rewrite (field_absent k fields Hk) in Hy'.
      rewrite (Hkeep (parse_undefined_output kt' y Hy')) in Hk. discriminate.
  - (* optional *)
    destruct v; simpl in *;
      try (destruct v'; [reflexivity|exact (IH Hshape _ _ Hparse)..]).
    now injection Hparse as <-.
Qed.

(** *** The validated value is the input without its undeclared keys *)

Lemma strip_object shape fields :
  strip (ZodObject shape) (VObj fields)
  = VObj (flat_map (fun kx =>
                      match assoc (fst kx) shape with
                      | Some kt => [(fst kx, strip kt (snd kx))]
                      | None => []
                      end) fields).
Proof.
  simpl. f_equal. apply flat_map_ext. intros [k x]. simpl.
  induction shape as [|[k0 kt0] rest IH]; simpl; [reflexivity|].
  destruct (String.eqb k k0); [reflexivity|exact IH].
Qed.

Lemma strip_undefined t : strip t VUndefined = VUndefined.
Proof. induction t; simpl; auto. Qed.

Lemma In_strip_object shape fields k s :
  In (k, s)
     (flat_map (fun kx =>
                  match assoc (fst kx) shape with
                  | Some kt => [(fst kx, strip kt (snd kx))]
                  | None => []
                  end) fields)
  <-> exists x kt,
        In (k, x) fields /\ assoc k shape = Some kt /\ s = strip kt x.
Proof.
  rewrite in_flat_map. split.
  - intros ([k' x] & Hin & Hs). simpl in Hs.
    destruct (assoc k' shape) as [kt|] eqn:Hkt; [|destruct Hs].
    destruct Hs as [[= -> <-]|[]]. now exists x, kt.
  - intros (x & kt & Hin & Hkt & ->). exists (k, x). split; [exact Hin|].
    simpl. rewrite Hkt. now left.
Qed.

Lemma same_value_primitive v :
  match v with VArr _ | VObj _ => True | _ => same_value v v = true end.
Proof.
  destruct v; simpl; auto.
  - apply Bool.eqb_reflx.
  - apply same_number_refl.
  - apply String.eqb_refl.
Qed.

(** The validated value is deep-equal to the input stripped of its
    undeclared keys. *)
Lemma parse_strips : forall t,
  shapes_distinct t = true ->
  forall v v',
    objects_distinct v = true ->
    _parse t v = OK v' ->
    same_value (strip t v) v' = true.
Proof.
  induction t as [| | | |element IH|shape IH|innerType IH]
    using ZodType_nested_ind; intros Hshape v v' Hdist Hparse.
  - destruct v as [| | | |s| |]; try discriminate. injection Hparse as <-.
    exact (same_value_primitive (VStr s)).
  - destruct v as [| | |n| | |]; try discriminate. simpl in Hparse.
    destruct (PrimFloat.is_nan n); [discriminate|].
    apply finish_OK in Hparse as [_ ->].
    exact (same_value_primitive (VNum n)).
  - destruct v as [| |b| | | |]; try discriminate. injection Hparse as <-.
    exact (same_value_primitive (VBool b)).
  - destruct v as [| | | |s| |]; try discriminate. simpl in Hparse.
    destruct (existsb (String.eqb s) values); [|discriminate].
    injection Hparse as <-. exact (same_value_primitive (VStr s)).
  - (* array *)
    destruct v as [| | | | |items|]; try discriminate.
    destruct (parse_array_accepted element items v' Hparse) as (vs & -> & Hall).
    simpl in Hshape, Hdist. rewrite forallb_forall in Hdist.
    change (strip (ZodArray element) (VArr items))
      with (VArr (map (strip element) items)).
    apply same_items_Forall2. clear Hparse.
    induction Hall as [|x y xs ys Hxy _ IHall]; simpl; constructor.
    + apply (IH Hshape x y); [apply Hdist; now left|exact Hxy].
    + apply IHall. intros z Hz. apply Hdist. now right.
  - (* object *)
    destruct v as [| | | | | |fields]; try discriminate.
    destruct (parse_object_accepted shape fields v' Hparse) as [-> Hkeys].
    simpl in Hshape, Hdist.
    apply andb_true_iff in Hshape as [Hdistinct Hshapes].
    apply andb_true_iff in Hdist as [Hfkeys Hfdist].
    rewrite forallb_forall in Hshapes, Hfdist. rewrite Forall_forall in IH.
    rewrite strip_object.
    assert (Hpresent : forall k y,
              In (k, y) (snd (parse_pairs _parse fields shape)) ->
              has_key k fields = true).
    { intros k y Hin.
      destruct (parse_pairs_kept _ _ _ _ _ Hin) as (kt & _ & Hy & Hkeep).
      destruct (has_key k fields) eqn:Hk; [reflexivity|].
      rewrite (field_absent k fields Hk) in Hy.
      exact (Hkeep (parse_undefined_output kt y Hy)). }
    simpl. apply andb_true_iff. split; apply forallb_forall.
    + intros [k s] Hin. simpl.
      apply In_strip_object in Hin as (x & kt & Hx & Hkt & ->).
      apply assoc_In in Hkt.
      pose proof (In_assoc k fields x Hfkeys Hx) as Hassoc.
      destruct (Hkeys k kt Hkt) as [y Hy].
      assert (Hundef : has_key k fields = false -> y = VUndefined).
      { intros Habsent. rewrite (In_has_key k fields x Hx) in Habsent.
        discriminate. }
      destruct (parse_pairs_field _parse fields shape k kt y Hdistinct Hkt Hy
                  Hundef) as [_ Hout].
      rewrite (Hout (In_has_key k fields x Hx)).
      rewrite (field_assoc k fields x Hassoc) in Hy.
      exact (IH (k, kt) Hkt (Hshapes (k, kt) Hkt) x y (Hfdist (k, x) Hx) Hy).
    + intros [k y] Hin. simpl.
      pose proof (Hpresent k y Hin) as Hk.
      apply has_key_assoc in Hk as [x Hx]. apply assoc_In in Hx.
      destruct (parse_pairs_kept _ _ _ _ _ Hin) as (kt & Hkt & _).
      destruct (has_key_assoc k shape (In_has_key k shape kt Hkt)) as [kt' Hkt'].
      apply (In_has_key k _ (strip kt' x)).
      apply In_strip_object. now exists x, kt'.
  - (* optional *)
    destruct v; try exact (IH Hshape _ _ Hdist Hparse).
    injection Hparse as <-. simpl. now rewrite strip_undefined.
Qed.

(** *** The validated value has its keys in the order of the schema *)

Lemma same_keys_refl a : same_keys a a = true.
Proof. induction a; simpl; [reflexivity|]. now rewrite String.eqb_refl. Qed.

Lemma parse_pairs_key_order parse_key fields shape :
  distinct_keys shape = true ->
  map fst (snd (parse_pairs parse_key fields shape))
  = filter (fun k => has_key k (snd (parse_pairs parse_key fields shape)))
      (map fst shape).
Proof.
  induction shape as [|[k0 kt0] rest IH]; intros Hd; [reflexivity|].
  simpl in Hd. apply andb_true_iff in Hd as [Hk0 Hd].
  apply negb_true_iff in Hk0. specialize (IH Hd).
  rewrite parse_pairs_cons. simpl.
  pose proof (parse_pairs_no_new_key parse_key fields rest k0 Hk0) as Hnone.
  assert (Hskip : map fst (snd (parse_pairs parse_key fields rest))
                  = filter (fun k => has_key k (snd (parse_pairs parse_key fields rest)))
                      (k0 :: map fst rest)).
  { simpl. now rewrite Hnone. }
  assert (Hcons : forall x,
             map fst ((k0, x) :: snd (parse_pairs parse_key fields rest))
             = filter (fun k => has_key k
                                  ((k0, x) :: snd (parse_pairs parse_key fields rest)))
                 (k0 :: map fst rest)).
  { intros x. simpl. rewrite has_key_cons, String.eqb_refl. simpl.
    f_equal. rewrite IH at 1. apply filter_ext_in.
    intros k Hk. rewrite has_key_cons.
    destruct (String.eqb_spec k k0) as [->|Hne]; [|reflexivity].
    apply in_map_iff in Hk as ([k' kt'] & Heq & Hin). simpl in Heq. subst k'.
    rewrite (In_has_key k0 rest kt' Hin) in Hk0. discriminate. }
  destruct (parse_key kt0 (field k0 fields)) as [v0|]; [|exact Hskip].
  unfold keep_pair. destruct v0; try apply Hcons.
  destruct (has_key k0 fields); [apply Hcons|exact Hskip].
Qed.

Lemma schema_ordered_undefined t : schema_ordered t VUndefined = true.
Proof. induction t; simpl; auto. Qed.

Lemma parse_in_schema_order : forall t,
  shapes_distinct t = true ->
  forall v v', _parse t v = OK v' -> schema_ordered t v' = true.
Proof.
  induction t as [| | | |element IH|shape IH|innerType IH]
    using ZodType_nested_ind; intros Hshape v v' Hparse; try reflexivity.
  - (* array *)
    destruct v as [| | | | |items|]; try discriminate.
    destruct (parse_array_accepted element items v' Hparse) as (vs & -> & Hall).
    simpl in Hshape. simpl. apply forallb_forall. intros y Hy. clear Hparse.
    induction Hall as [|x y' xs ys Hxy _ IHall]; [destruct Hy|].
    destruct Hy as [<-|Hy]; [exact (IH Hshape x y' Hxy)|exact (IHall Hy)].
  - (* object *)
    destruct v as [| | | | | |fields]; try discriminate.
    destruct (parse_object_accepted shape fields v' Hparse) as [-> Hkeys].
    simpl in Hshape. apply andb_true_iff in Hshape as [Hdistinct Hshapes].
    rewrite forallb_forall in Hshapes. rewrite Forall_forall in IH.
    simpl. apply andb_true_iff. split.
    + rewrite <- (parse_pairs_key_order _parse fields shape Hdistinct).
      apply same_keys_refl.
    + apply forallb_forall. intros [k kt] Hin. simpl.
      destruct (Hkeys k kt Hin) as [y Hy].
      assert (Hundef : has_key k fields = false -> y = VUndefined).
      { intros Habsent. rewrite (field_absent k fields Habsent) in Hy.
        exact (parse_undefined_output kt y Hy). }
      destruct (parse_pairs_field _parse fields shape k kt y Hdistinct Hin Hy
                  Hundef) as [-> _].
      exact (IH (k, kt) Hin (Hshapes (k, kt) Hin) _ y Hy).
  - (* optional *)
    destruct v; simpl in *; try exact (IH Hshape _ _ Hparse).
    injection Hparse as <-. apply schema_ordered_undefined.
Qed.
(** The seven schemas repeat no key. *)
Lemma schemas_have_distinct_keys f : shapes_distinct (schema_of f) = true.
Proof. destruct f; reflexivity. Qed.


(** An issue of a field of an item of a list-valued key, seen from the top. *)
Lemma parse_listed_field_issue shape inner k1 k2 kt fields items i entry x c :
  In (k1, ZodArray (ZodObject inner)) shape ->
  In (k2, kt) inner ->
  assoc k1 fields = Some (VArr items) ->
  nth_error items i = Some (VObj entry) ->
  assoc k2 entry = Some x ->
  In (issue_here c) (issues_of (_parse kt x)) ->
  exists issues,
    _parse (ZodObject shape) (VObj fields) = INVALID issues
    /\ In (mkIssue c [at_key k1; at_index i; at_key k2]) issues.
Proof.
  intros Hk1 Hk2 Hfields Hnth Hentry Hissue.
  apply issue_makes_invalid.
  refine (parse_object_issue shape fields k1 _
            (mkIssue c [at_index i; at_key k2]) Hk1 _).
  rewrite (field_assoc k1 fields _ Hfields).
  refine (parse_array_issue _ items i (VObj entry)
            (mkIssue c [at_key k2]) Hnth _).
  refine (parse_object_issue inner entry k2 kt (issue_here c) Hk2 _).
  now rewrite (field_assoc k2 entry x Hentry).
Qed.

(** C5: a co-working payload with a venue whose [rank] is below 1 or above 5
    fails [coworkingRecommendationSchema], and a community payload with an
    entry whose [relevanceScore] is below 1 or above 10 fails
    [communityRecommendationSchema]; the failure carries an issue located at
    that field. *)
Theorem out_of_range_scores_fail_validation :
  (forall fields venues i venue r,
      assoc "recommendations" fields = Some (VArr venues) ->
      nth_error venues i = Some (VObj venue) ->
      assoc "rank" venue = Some (VNum r) ->
      PrimFloat.ltb r 1 = true \/ PrimFloat.ltb 5 r = true ->
      exists issues c,
        safeParse coworkingRecommendationSchema (VObj fields) = INVALID issues
        /\ In (mkIssue c [at_key "recommendations"; at_index i; at_key "rank"])
             issues)
  /\ (forall fields entries i entry r,
        assoc "recommendations" fields = Some (VArr entries) ->
        nth_error entries i = Some (VObj entry) ->
        assoc "relevanceScore" entry = Some (VNum r) ->
        PrimFloat.ltb r 1 = true \/ PrimFloat.ltb 10 r = true ->
        exists issues c,
          safeParse communityRecommendationSchema (VObj fields) = INVALID issues
          /\ In (mkIssue c [at_key "recommendations"; at_index i;
                            at_key "relevanceScore"]) issues).
Proof.
  split; intros fields items i entry r Hfields Hnth Hscore Hout.
  - destruct (parse_bounded_number 1 5 r Hout) as [c Hissue].
    assert (H : exists issues,
               safeParse coworkingRecommendationSchema (VObj fields)
                 = INVALID issues
               /\ In (mkIssue c [at_key "recommendations"; at_index i;
                                 at_key "rank"]) issues).
    { unfold safeParse, coworkingRecommendationSchema, z.object, z.array.
      eapply (parse_listed_field_issue _ _ "recommendations" "rank" _
                fields items i entry (VNum r) c);
        [ left; reflexivity | do 8 right; left; reflexivity
        | exact Hfields | exact Hnth | exact Hscore | exact Hissue ]. }
    destruct H as [issues H]. now exists issues, c.
  - destruct (parse_bounded_number 1 10 r Hout) as [c Hissue].
    assert (H : exists issues,
               safeParse communityRecommendationSchema (VObj fields)
                 = INVALID issues
               /\ In (mkIssue c [at_key "recommendations"; at_index i;
                                 at_key "relevanceScore"]) issues).
    { unfold safeParse, communityRecommendationSchema, z.object, z.array.
      eapply (parse_listed_field_issue _ _ "recommendations" "relevanceScore" _
                fields items i entry (VNum r) c);
        [ left; reflexivity | do 2 right; left; reflexivity
        | exact Hfields | exact Hnth | exact Hscore | exact Hissue ]. }
    destruct H as [issues H]. now exists issues, c.
Qed.

(** The raw-text fallback lacks a required key of every schema. *)
Lemma raw_fallback_lacks_required f textContent :
  lacks_required (schema_of f) (VObj [("rawResponse", textContent)]) = true.
Proof. destruct f; reflexivity. Qed.

Lemma get_named_throws_TypeError v k e :
  get_named v k = inl e -> is_validation_error e = false.
Proof. destruct v; simpl; intros [= <-]; reflexivity. Qed.

Lemma get_index_throws_TypeError v i e :
  get_index v i = inl e -> is_validation_error e = false.
Proof. destruct v; simpl; intros [= <-]; reflexivity. Qed.

Lemma textContent_of_throws_TypeError candidates e :
  textContent_of candidates = inl e -> is_validation_error e = false.
Proof.
  unfold textContent_of.
  destruct (get_index candidates 0) as [e0|candidate] eqn:H0.
  { intros [= <-]. exact (get_index_throws_TypeError _ _ _ H0). }
  destruct (get_named candidate "content") as [e1|content] eqn:H1.
  { intros [= <-]. exact (get_named_throws_TypeError _ _ _ H1). }
  destruct (get_named content "parts") as [e2|parts] eqn:H2.
  { intros [= <-]. exact (get_named_throws_TypeError _ _ _ H2). }
  destruct (get_index parts 0) as [e3|part] eqn:H3.
  { intros [= <-]. exact (get_index_throws_TypeError _ _ _ H3). }
  apply get_named_throws_TypeError.
Qed.

(** ** The Gateway *)

Section GatewayProperties.

Variable JSON_parse : value -> option value.
Variable JSON_stringify : value -> nat -> option string.
Variable Number_toString : float -> string.
Variable w : World.

(** With a credential, the Gateway sends exactly one request; what it does
    with a successful response is decided by the body alone. *)
Lemma callGeminiAPI_with_key prompt context modelParams l :
  String.eqb (apiKey w) EmptyString = false ->
  callGeminiAPI JSON_parse JSON_stringify w prompt context modelParams l
  = let r := request JSON_stringify w prompt modelParams in
    let l1 := sent r l in
    match remote w (network l) r with
    | Rejected message => (Throw (TypeError message), printed (TypeError message) l1)
    | Resolved response =>
        if negb (ok response) then
          let e := Error ("Gemini API error: " ++ decimal (status response)
                            ++ " - " ++ text response) in
          (Throw e, printed e l1)
        else
          match json response with
          | None =>
              let e := SyntaxError "Unexpected token in JSON" in
              (Throw e, printed e l1)
          | Some data =>
              match get_named data "candidates" with
              | inl e => (Throw e, printed e l1)
              | inr candidates =>
                  if negb (truthy candidates) || length_is_0 candidates then
                    (Throw (Error no_response_message),
                     printed (Error no_response_message) l1)
                  else
                    match textContent_of candidates with
                    | inl e => (Throw e, printed e l1)
                    | inr textContent =>
                        (Return (parse_or_raw JSON_parse textContent), l1)
                    end
              end
          end
    end.
Proof.
  intros Hkey. unfold callGeminiAPI. rewrite Hkey.
  unfold try_catch, bind, fetch, sent, printed, console_error, throw; simpl.
  destruct (remote w (network l) (request JSON_stringify w prompt modelParams))
    as [response|message]; [|reflexivity].
  destruct (ok response); simpl; [|reflexivity].
  unfold response_json.
  destruct (json response) as [data|]; simpl; [|reflexivity].
  destruct (get_named data "candidates") as [e|candidates]; simpl; [reflexivity|].
  destruct (negb (truthy candidates) || length_is_0 candidates); simpl;
    [reflexivity|].
  destruct (textContent_of candidates) as [e|textContent]; reflexivity.
Qed.

(** With a credential, whatever the service answers, the call adds exactly
    its own request to the log. *)
Lemma callGeminiAPI_sends_one_request prompt context modelParams l :
  String.eqb (apiKey w) EmptyString = false ->
  network (snd (callGeminiAPI JSON_parse JSON_stringify w prompt context
                  modelParams l))
  = network l ++ [request JSON_stringify w prompt modelParams].
Proof.
  intros Hkey. rewrite callGeminiAPI_with_key by exact Hkey. cbv zeta.
  destruct (remote w (network l) (request JSON_stringify w prompt modelParams))
    as [response|message]; [|reflexivity].
  destruct (negb (ok response)); [reflexivity|].
  destruct (json response) as [data|]; [|reflexivity].
  destruct (get_named data "candidates") as [e|candidates]; [reflexivity|].
  destruct (negb (truthy candidates) || length_is_0 candidates); [reflexivity|].
  destruct (textContent_of candidates); reflexivity.
Qed.

Lemma parse_keeps_the_log schema data l : snd (parse schema data l) = l.
Proof. unfold parse. now destruct (safeParse schema data). Qed.

Lemma skipn_length_app {A : Type} (a b : list A) :
  skipn (List.length a) (a ++ b) = b.
Proof. induction a; simpl; auto. Qed.

(** A successful response with an extractable text makes the Gateway
    return what the inner [try] yields, after one request. *)
Lemma callGeminiAPI_returns
  prompt context modelParams l response data textContent :
  String.eqb (apiKey w) EmptyString = false ->
  remote w (network l) (request JSON_stringify w prompt modelParams)
    = Resolved response ->
  ok response = true ->
  json response = Some data ->
  extracted_text data = Some textContent ->
  callGeminiAPI JSON_parse JSON_stringify w prompt context modelParams l
  = (Return (parse_or_raw JSON_parse textContent),
     sent (request JSON_stringify w prompt modelParams) l).
Proof.
  intros Hkey Hremote Hok Hjson Htext.
  rewrite callGeminiAPI_with_key by exact Hkey.
  cbv zeta. rewrite Hremote, Hok, Hjson. simpl.
  unfold extracted_text in Htext.
  destruct (get_named data "candidates") as [e|candidates]; [discriminate|].
  destruct (negb (truthy candidates) || length_is_0 candidates); [discriminate|].
  destruct (textContent_of candidates) as [e|t]; [discriminate|].
  now injection Htext as ->.
Qed.

(** Whatever the Gateway throws, it is not a [ZodError]. *)
Lemma callGeminiAPI_never_throws_ZodError prompt context modelParams l e l' :
  callGeminiAPI JSON_parse JSON_stringify w prompt context modelParams l
    = (Throw e, l') ->
  is_validation_error e = false.
Proof.
  destruct (String.eqb (apiKey w) EmptyString) eqn:Hkey.
  - unfold callGeminiAPI. rewrite Hkey. now intros [= <- _].
  - rewrite callGeminiAPI_with_key by exact Hkey. cbv zeta.
    destruct (remote w (network l) (request JSON_stringify w prompt modelParams))
      as [response|message]; [|now intros [= <- _]].
    destruct (negb (ok response)); [now intros [= <- _]|].
    destruct (json response) as [data|]; [|now intros [= <- _]].
    destruct (get_named data "candidates") as [e0|candidates] eqn:Hc.
    { intros [= <- _]. exact (get_named_throws_TypeError _ _ _ Hc). }
    destruct (negb (truthy candidates) || length_is_0 candidates);
      [now intros [= <- _]|].
    destruct (textContent_of candidates) as [e0|textContent] eqn:Ht.
    { intros [= <- _]. exact (textContent_of_throws_TypeError _ _ Ht). }
    discriminate.
Qed.

(** Every operation builds its prompt, calls the Gateway with no context
    and no parameters, and validates what comes back. *)
Lemma operation_run f input l :
  operation JSON_parse JSON_stringify Number_toString w f input l
  = match prompt_of JSON_stringify Number_toString f input with
    | inl e => (Throw e, l)
    | inr prompt =>
        match callGeminiAPI JSON_parse JSON_stringify w prompt [] [] l with
        | (Return result, l') => parse (schema_of f) result l'
        | (Throw e, l') => (Throw e, l')
        end
    end.
Proof.
  destruct f; try reflexivity.
  unfold operation, getLegalResources, prompt_of, interpolated, bind, lift.
  destruct (get_named input "question"); reflexivity.
Qed.

(** An operation whose prompt is built sends the request of that prompt and
    no other. *)
Lemma operation_sends_its_prompt f input prompt l :
  prompt_of JSON_stringify Number_toString f input = inr prompt ->
  String.eqb (apiKey w) EmptyString = false ->
  requests_of (operation JSON_parse JSON_stringify Number_toString w f input) l
  = [request JSON_stringify w prompt []].
Proof.
  intros Hprompt Hkey. unfold requests_of.
  rewrite operation_run, Hprompt.
  pose proof (callGeminiAPI_sends_one_request prompt [] [] l Hkey) as Hsent.
  destruct (callGeminiAPI JSON_parse JSON_stringify w prompt [] [] l)
    as [[result|e] l1]; simpl in Hsent |- *.
  - now rewrite parse_keeps_the_log, Hsent, skipn_length_app.
  - now rewrite Hsent, skipn_length_app.
Qed.

(** C1: when a successful response carries a text that [JSON.parse]
    rejects, the Gateway returns the object [{rawResponse: text}] and does
    not throw. *)
Theorem non_json_text_is_returned_raw
  prompt context modelParams l response data textContent :
  String.eqb (apiKey w) EmptyString = false ->
  remote w (network l) (request JSON_stringify w prompt modelParams)
    = Resolved response ->
  ok response = true ->
  json response = Some data ->
  extracted_text data = Some textContent ->
  JSON_parse textContent = None ->
  callGeminiAPI JSON_parse JSON_stringify w prompt context modelParams l
  = (Return (VObj [("rawResponse", textContent)]),
     sent (request JSON_stringify w prompt modelParams) l).
Proof.
  intros Hkey Hremote Hok Hjson Htext Hparse.
  rewrite (callGeminiAPI_returns prompt context modelParams l response data
             textContent Hkey Hremote Hok Hjson Htext).
  unfold parse_or_raw. now rewrite Hparse.
Qed.

(** C2: when the Gateway returns a value that lacks a key some schema of the
    feature requires, the operation throws a [ZodError] reporting
    [undefined] at that key; and no error the Gateway itself throws (missing
    credential, transport, upstream) is a [ZodError]. *)
Theorem missing_required_field_throws_ZodError
  f input prompt l result l' :
  prompt_of JSON_stringify Number_toString f input = inr prompt ->
  callGeminiAPI JSON_parse JSON_stringify w prompt [] [] l = (Return result, l') ->
  lacks_required (schema_of f) result = true ->
  (exists issues expected p,
      operation JSON_parse JSON_stringify Number_toString w f input l
        = (Throw (ZodError issues), l')
      /\ In (mkIssue (invalid_type expected zt_undefined) p) issues)
  /\ (forall prompt0 context modelParams l0 e l1,
        callGeminiAPI JSON_parse JSON_stringify w prompt0 context modelParams l0
          = (Throw e, l1) ->
        is_validation_error e = false).
Proof.
  intros Hprompt Hcall Hlack. split.
  - destruct (lacks_required_issue _ _ Hlack) as (expected & p & Hissue).
    destruct (issue_makes_invalid _ _ Hissue) as (issues & Hparse & Hin).
    exists issues, expected, p. split; [|exact Hin].
    rewrite operation_run, Hprompt, Hcall.
    unfold parse, safeParse. now rewrite Hparse.
  - exact callGeminiAPI_never_throws_ZodError.
Qed.

(** C3: without a credential (the variable unset or empty) the Gateway
    throws the configuration error and leaves the log as it found it: no
    request has been issued. *)
Theorem missing_credential_throws_before_any_request
  prompt context modelParams l :
  GEMINI_API_KEY w = None \/ GEMINI_API_KEY w = Some EmptyString ->
  callGeminiAPI JSON_parse JSON_stringify w prompt context modelParams l
    = (Throw (Error missing_key_message), l)
  /\ calls_issued
       (callGeminiAPI JSON_parse JSON_stringify w prompt context modelParams) l
     = 0.
Proof.
  intros Hkey.
  assert (Hrun : callGeminiAPI JSON_parse JSON_stringify w prompt context
                   modelParams l = (Throw (Error missing_key_message), l)).
  { unfold callGeminiAPI, apiKey.
    destruct Hkey as [-> | ->]; reflexivity. }
  split; [exact Hrun|].
  unfold calls_issued. rewrite Hrun. simpl. apply Nat.sub_diag.
Qed.

(** C4: when the body of a successful response has no [candidates] field,
    a [null] one or an empty list of candidates, the Gateway throws the
    error [no_response_message], which is not a [ZodError]. *)
Theorem zero_candidates_throw_an_upstream_error
  prompt context modelParams l response fields :
  String.eqb (apiKey w) EmptyString = false ->
  remote w (network l) (request JSON_stringify w prompt modelParams)
    = Resolved response ->
  ok response = true ->
  json response = Some (VObj fields) ->
  assoc "candidates" fields = None
  \/ assoc "candidates" fields = Some VNull
  \/ assoc "candidates" fields = Some (VArr []) ->
  exists e l',
    callGeminiAPI JSON_parse JSON_stringify w prompt context modelParams l
      = (Throw e, l')
    /\ e = Error no_response_message
    /\ is_validation_error e = false.
Proof.
  intros Hkey Hremote Hok Hjson Hcand.
  exists (Error no_response_message).
  eexists. split; [|split; reflexivity].
  rewrite callGeminiAPI_with_key by exact Hkey.
  cbv zeta. rewrite Hremote, Hok, Hjson. simpl. unfold field.
  destruct Hcand as [-> | [-> | ->]]; reflexivity.
Qed.

(** C7: a call with a credential sends one request, whose body is the
    serialized payload with [generationConfig]; with no [modelParams] the
    configuration is temperature 0.7, topK 40, topP 0.95 and
    maxOutputTokens 8192; a key of [modelParams] takes the value given there
    and every other key keeps its default. *)
Theorem generation_defaults_are_overridable_one_by_one
  prompt context modelParams l :
  String.eqb (apiKey w) EmptyString = false ->
  distinct_keys modelParams = true ->
  network (snd (callGeminiAPI JSON_parse JSON_stringify w prompt context
                  modelParams l))
    = network l ++ [request JSON_stringify w prompt modelParams]
  /\ req_body (request JSON_stringify w prompt modelParams)
     = JSON_stringify
         (VObj [("contents",
                  VArr [VObj [("parts", VArr [VObj [("text", VStr prompt)]])]]);
                ("generationConfig", VObj (generationConfig modelParams))]) 0
  /\ generationConfig []
     = [("temperature", VNum 0.7%float); ("topK", VNum 40%float);
        ("topP", VNum 0.95%float); ("maxOutputTokens", VNum 8192%float)]
  /\ forall k,
       assoc k (generationConfig modelParams)
       = match assoc k modelParams with
         | Some v => Some v
         | None => assoc k (generationConfig [])
         end.
Proof.
  intros Hkey Hdistinct. repeat split.
  - exact (callGeminiAPI_sends_one_request prompt context modelParams l Hkey).
  - intros k. unfold generationConfig. apply assoc_spread. exact Hdistinct.
Qed.

(** C9: when the text of a successful response is not JSON, the Gateway
    returns [{rawResponse: text}] without throwing, that object fails the
    schema of every feature, and the operation throws the [ZodError]. *)
Theorem raw_fallback_is_rejected_by_every_operation
  f input prompt l response data textContent :
  prompt_of JSON_stringify Number_toString f input = inr prompt ->
  String.eqb (apiKey w) EmptyString = false ->
  remote w (network l) (request JSON_stringify w prompt []) = Resolved response ->
  ok response = true ->
  json response = Some data ->
  extracted_text data = Some textContent ->
  JSON_parse textContent = None ->
  callGeminiAPI JSON_parse JSON_stringify w prompt [] [] l
    = (Return (VObj [("rawResponse", textContent)]),
       sent (request JSON_stringify w prompt []) l)
  /\ exists issues,
       safeParse (schema_of f) (VObj [("rawResponse", textContent)])
         = INVALID issues
       /\ operation JSON_parse JSON_stringify Number_toString w f input l
          = (Throw (ZodError issues), sent (request JSON_stringify w prompt []) l).
Proof.
  intros Hprompt Hkey Hremote Hok Hjson Htext Hparse.
  assert (Hcall : callGeminiAPI JSON_parse JSON_stringify w prompt [] [] l
                  = (Return (VObj [("rawResponse", textContent)]),
                     sent (request JSON_stringify w prompt []) l)).
  { rewrite (callGeminiAPI_returns prompt [] [] l response data textContent
               Hkey Hremote Hok Hjson Htext).
    unfold parse_or_raw. now rewrite Hparse. }
  split; [exact Hcall|].
  destruct (lacks_required_issue _ _ (raw_fallback_lacks_required f textContent))
    as (expected & p & Hissue).
  destruct (issue_makes_invalid _ _ Hissue) as (issues & Hinvalid & _).
  exists issues. split; [exact Hinvalid|].
  rewrite operation_run, Hprompt, Hcall.
  unfold parse, safeParse. now rewrite Hinvalid.
Qed.

(** C6, as amended: when the text parses to a value that conforms to the
    schema of a feature and has no key beyond the declared ones, the parse
    step followed by validation succeeds, the validated value is deep-equal
    to the parsed one, and its keys are in the order of the schema. *)
Theorem declared_only_payloads_round_trip f textContent v :
  JSON_parse textContent = Some v ->
  objects_distinct v = true ->
  conforms (schema_of f) v = true ->
  only_declared (schema_of f) v = true ->
  exists v',
    safeParse (schema_of f) (parse_or_raw JSON_parse textContent) = OK v'
    /\ same_value v v' = true
    /\ schema_ordered (schema_of f) v' = true.
Proof.
  intros Hparse Hdist Hconf Hdecl.
  destruct (parse_conforming (schema_of f) (schemas_have_distinct_keys f) v Hconf)
    as (v' & Hok & _ & Hsame).
  exists v'. unfold parse_or_raw. rewrite Hparse.
  split; [exact Hok|]. split; [exact (Hsame Hdist Hdecl)|].
  exact (parse_in_schema_order (schema_of f) (schemas_have_distinct_keys f)
           v v' Hok).
Qed.

End GatewayProperties.

(** ** Two runs *)

(** C8: the prompt of an operation is a function of the input alone. Two
    calls on equal inputs, in any two configured worlds and after any two
    histories, build the same prompt and send its request and no other: the
    literal head of the template of the feature, then the text
    [JSON.stringify(input, null, 2)] (for [getLegalResources] the string of
    [query.question], for [getAssistantResponse] the string of [query]),
    then the literal tail; a string is embedded as it is. When
    [query.question] cannot be read, both calls throw that error and send
    nothing. *)
Theorem prompt_is_a_function_of_the_input
  JSON_parse JSON_stringify Number_toString f input1 input2 w1 w2 l1 l2 :
  input1 = input2 ->
  String.eqb (apiKey w1) EmptyString = false ->
  String.eqb (apiKey w2) EmptyString = false ->
  (forall q, ToString Number_toString (VStr q) = q)
  /\ match
       match f with
       | LegalResource =>
           match get_named input1 "question" with
           | inl e => inl e
           | inr question => inr (ToString Number_toString question)
           end
       | AssistantResponse => inr (ToString Number_toString input1)
       | _ =>
           inr (match JSON_stringify input1 2 with
                | Some text => text
                | None => "undefined"
                end)
       end
     with
     | inr text =>
         prompt_of JSON_stringify Number_toString f input1
           = inr (prompt_head f ++ text ++ prompt_tail f)%string
         /\ prompt_of JSON_stringify Number_toString f input2
            = inr (prompt_head f ++ text ++ prompt_tail f)%string
         /\ requests_of
              (operation JSON_parse JSON_stringify Number_toString w1 f input1) l1
            = [request JSON_stringify w1
                 (prompt_head f ++ text ++ prompt_tail f) []]
         /\ requests_of
              (operation JSON_parse JSON_stringify Number_toString w2 f input2) l2
            = [request JSON_stringify w2
                 (prompt_head f ++ text ++ prompt_tail f) []]
     | inl e =>
         operation JSON_parse JSON_stringify Number_toString w1 f input1 l1
           = (Throw e, l1)
         /\ operation JSON_parse JSON_stringify Number_toString w2 f input2 l2
            = (Throw e, l2)
     end.
Proof.
  intros <- Hkey1 Hkey2. split; [reflexivity|].
  assert (Hsent : forall text,
             prompt_of JSON_stringify Number_toString f input1
               = inr (prompt_head f ++ text ++ prompt_tail f)%string ->
             prompt_of JSON_stringify Number_toString f input1
               = inr (prompt_head f ++ text ++ prompt_tail f)%string
             /\ prompt_of JSON_stringify Number_toString f input1
                = inr (prompt_head f ++ text ++ prompt_tail f)%string
             /\ requests_of
                  (operation JSON_parse JSON_stringify Number_toString w1 f input1) l1
                = [request JSON_stringify w1
                     (prompt_head f ++ text ++ prompt_tail f) []]
             /\ requests_of
                  (operation JSON_parse JSON_stringify Number_toString w2 f input1) l2
                = [request JSON_stringify w2
                     (prompt_head f ++ text ++ prompt_tail f) []]).
  { intros text Hprompt. split; [exact Hprompt|]. split; [exact Hprompt|]. split.
    - exact (operation_sends_its_prompt JSON_parse JSON_stringify
               Number_toString w1 f input1 _ l1 Hprompt Hkey1).
    - exact (operation_sends_its_prompt JSON_parse JSON_stringify
               Number_toString w2 f input1 _ l2 Hprompt Hkey2). }
  destruct f; try (apply Hsent; reflexivity).
  destruct (get_named input1 "question") as [e|question] eqn:Hq.
  - rewrite !operation_run. unfold prompt_of, interpolated. rewrite Hq.
    split; reflexivity.
  - apply Hsent. unfold prompt_of, interpolated. now rewrite Hq.
Qed.

(** ** The theorems at work on the reference runtime *)

(** The example scenario: two overlapping events, a stubbed service that
    answers [conflict_answer]; the operation returns the validated analysis
    with [hasConflict] true and one solution, after one request. *)
Example scenario_conflict :
  analyzeCalendarConflicts reference_JSON_parse reference_JSON_stringify
    (service (reply (VStr conflict_answer))) two_events empty_log
  = (Return
       (VObj [("hasConflict", VBool true);
              ("conflictDetails", VStr "Overlapping");
              ("suggestedSolutions",
                VArr [VObj [("description", VStr "Move call to 11:00");
                            ("pros", VArr [VStr "No disruption"]);
                            ("cons", VArr [VStr "Later start"])]])]),
     sent (request reference_JSON_stringify
             (service (reply (VStr conflict_answer)))
             (prompt_head ConflictAnalysis
                ++ stringified reference_JSON_stringify two_events
                ++ prompt_tail ConflictAnalysis) []) empty_log).
Proof. vm_compute. reflexivity. Qed.


Lemma prompt_is_a_function_of_the_input_witness :
  prompt_of reference_JSON_stringify reference_Number_toString
    ConflictAnalysis two_events
  = inr (analyzeCalendarConflicts_prompt_head ++ two_events_text
           ++ analyzeCalendarConflicts_prompt_tail)%string
  /\ prompt_of reference_JSON_stringify reference_Number_toString
       ConflictAnalysis two_events
     = inr (analyzeCalendarConflicts_prompt_head ++ two_events_text
              ++ analyzeCalendarConflicts_prompt_tail)%string
  /\ requests_of
    (operation reference_JSON_parse reference_JSON_stringify
       reference_Number_toString (service (reply (VStr "{}")))
       ConflictAnalysis two_events)
    empty_log
  = [request reference_JSON_stringify (service (reply (VStr "{}")))
       (analyzeCalendarConflicts_prompt_head ++ two_events_text
          ++ analyzeCalendarConflicts_prompt_tail) []]
  /\ requests_of
       (operation reference_JSON_parse reference_JSON_stringify
          reference_Number_toString
          (service (reply (VStr "Sorry, I cannot help with that.")))
          ConflictAnalysis two_events)
       (sent (request reference_JSON_stringify (service (reply (VStr "{}")))
                "an earlier prompt" []) empty_log)
     = [request reference_JSON_stringify
          (service (reply (VStr "Sorry, I cannot help with that.")))
          (analyzeCalendarConflicts_prompt_head ++ two_events_text
             ++ analyzeCalendarConflicts_prompt_tail) []].
Proof.
  exact (proj2 (prompt_is_a_function_of_the_input
           reference_JSON_parse reference_JSON_stringify
           reference_Number_toString
           ConflictAnalysis two_events two_events
           (service (reply (VStr "{}")))
           (service (reply (VStr "Sorry, I cannot help with that.")))
           empty_log
           (sent (request reference_JSON_stringify (service (reply (VStr "{}")))
                    "an earlier prompt" []) empty_log)
           eq_refl eq_refl eq_refl)).
Defined.

Lemma non_json_text_is_returned_raw_witness :
  callGeminiAPI reference_JSON_parse reference_JSON_stringify
    (service (reply (VStr "Sorry, I cannot help with that.")))
    "Plan my week" [] [] empty_log
  = (Return (VObj [("rawResponse", VStr "Sorry, I cannot help with that.")]),
     sent (request reference_JSON_stringify
             (service (reply (VStr "Sorry, I cannot help with that.")))
             "Plan my week" []) empty_log).
Proof.
  apply (non_json_text_is_returned_raw reference_JSON_parse
           reference_JSON_stringify
           (service (reply (VStr "Sorry, I cannot help with that.")))
           "Plan my week" [] [] empty_log
           (reply (VStr "Sorry, I cannot help with that."))
           (VObj [("candidates",
                    VArr [VObj [("content",
                                  VObj [("parts",
                                          VArr [VObj [("text",
                                            VStr "Sorry, I cannot help with that.")]])])]])])
           (VStr "Sorry, I cannot help with that."));
    reflexivity.
Defined.

Lemma missing_credential_throws_before_any_request_witness :
  callGeminiAPI reference_JSON_parse reference_JSON_stringify unconfigured
    "Plan my week" [] [] empty_log
    = (Throw (Error missing_key_message), empty_log)
  /\ calls_issued
       (callGeminiAPI reference_JSON_parse reference_JSON_stringify unconfigured
          "Plan my week" [] []) empty_log
     = 0.
Proof.
  apply (missing_credential_throws_before_any_request reference_JSON_parse
           reference_JSON_stringify unconfigured "Plan my week" [] [] empty_log).
  left. reflexivity.
Defined.

Lemma zero_candidates_throw_an_upstream_error_witness :
  exists e l',
    callGeminiAPI reference_JSON_parse reference_JSON_stringify
      (service (mkResponse true 200 EmptyString
                  (Some (VObj [("candidates", VArr [])]))))
      "Plan my week" [] [] empty_log
    = (Throw e, l')
    /\ e = Error no_response_message
    /\ is_validation_error e = false.
Proof.
  apply (zero_candidates_throw_an_upstream_error reference_JSON_parse
           reference_JSON_stringify
           (service (mkResponse true 200 EmptyString
                       (Some (VObj [("candidates", VArr [])]))))
           "Plan my week" [] [] empty_log
           (mkResponse true 200 EmptyString
              (Some (VObj [("candidates", VArr [])])))
           [("candidates", VArr [])]);
    try reflexivity.
  right. right. reflexivity.
Defined.

Lemma generation_defaults_are_overridable_one_by_one_witness :
  assoc "temperature"
    (generationConfig [("temperature", VNum 0.2%float)]) = Some (VNum 0.2%float)
  /\ assoc "topK"
       (generationConfig [("temperature", VNum 0.2%float)]) = Some (VNum 40%float).
Proof.
  destruct (generation_defaults_are_overridable_one_by_one
              reference_JSON_parse reference_JSON_stringify
              (service (reply (VStr "{}"))) "Plan my week" []
              [("temperature", VNum 0.2%float)] empty_log
              eq_refl eq_refl) as (_ & _ & _ & H).
  split; [exact (H "temperature") | exact (H "topK")].
Defined.

Lemma missing_required_field_throws_ZodError_witness :
  exists issues expected p,
    operation reference_JSON_parse reference_JSON_stringify reference_Number_toString
      (service (reply (VStr "{}"))) AssistantResponse (VStr "Where next?")
      empty_log
    = (Throw (ZodError issues),
       sent (request reference_JSON_stringify (service (reply (VStr "{}")))
               (getAssistantResponse_prompt_head ++ "Where next?"
                  ++ getAssistantResponse_prompt_tail) []) empty_log)
    /\ In (mkIssue (invalid_type expected zt_undefined) p) issues.
Proof.
  apply (missing_required_field_throws_ZodError reference_JSON_parse
           reference_JSON_stringify reference_Number_toString
           (service (reply (VStr "{}"))) AssistantResponse (VStr "Where next?")
           (getAssistantResponse_prompt_head ++ "Where next?"
              ++ getAssistantResponse_prompt_tail)
           empty_log (VObj []));
    reflexivity.
Defined.

Lemma raw_fallback_is_rejected_by_every_operation_witness :
  exists issues,
    safeParse (schema_of ConflictAnalysis)
      (VObj [("rawResponse", VStr "Sorry, I cannot help with that.")])
      = INVALID issues
    /\ operation reference_JSON_parse reference_JSON_stringify
         reference_Number_toString
         (service (reply (VStr "Sorry, I cannot help with that.")))
         ConflictAnalysis (VArr []) empty_log
       = (Throw (ZodError issues),
          sent (request reference_JSON_stringify
                  (service (reply (VStr "Sorry, I cannot help with that.")))
                  (analyzeCalendarConflicts_prompt_head ++ "[]"
                     ++ analyzeCalendarConflicts_prompt_tail) []) empty_log).
Proof.
  apply (raw_fallback_is_rejected_by_every_operation reference_JSON_parse
           reference_JSON_stringify reference_Number_toString
           (service (reply (VStr "Sorry, I cannot help with that.")))
           ConflictAnalysis (VArr [])
           (analyzeCalendarConflicts_prompt_head ++ "[]"
              ++ analyzeCalendarConflicts_prompt_tail)
           empty_log
           (reply (VStr "Sorry, I cannot help with that."))
           (VObj [("candidates",
                    VArr [VObj [("content",
                                  VObj [("parts",
                                          VArr [VObj [("text",
                                            VStr "Sorry, I cannot help with that.")]])])]])])
           (VStr "Sorry, I cannot help with that."));
    reflexivity.
Defined.

(** C6, as stated, fails: the text [answer_with_mood] is valid JSON and
    conforms to [assistantResponseSchema], yet validation returns an object
    without [mood], which is not deep-equal to the parsed one. *)
Lemma undeclared_field_breaks_round_trip :
  reference_JSON_parse (VStr answer_with_mood)
    = Some (VObj [("response", VStr "Lisbon"); ("mood", VStr "calm")])
  /\ conforms (schema_of AssistantResponse)
       (VObj [("response", VStr "Lisbon"); ("mood", VStr "calm")]) = true
  /\ safeParse (schema_of AssistantResponse)
       (parse_or_raw reference_JSON_parse (VStr answer_with_mood))
     = OK (VObj [("response", VStr "Lisbon")])
  /\ same_value (VObj [("response", VStr "Lisbon"); ("mood", VStr "calm")])
       (VObj [("response", VStr "Lisbon")]) = false.
Proof. repeat split; vm_compute; reflexivity. Qed.

Lemma declared_only_payloads_round_trip_witness :
  exists v',
    safeParse (schema_of AssistantResponse)
      (parse_or_raw reference_JSON_parse (VStr answer_with_actions)) = OK v'
    /\ same_value
         (VObj [("suggestedActions", VArr [VStr "Book a desk"]);
                ("response", VStr "Lisbon")]) v' = true
    /\ schema_ordered (schema_of AssistantResponse) v' = true.
Proof.
  apply (declared_only_payloads_round_trip reference_JSON_parse
           AssistantResponse (VStr answer_with_actions)
           (VObj [("suggestedActions", VArr [VStr "Book a desk"]);
                  ("response", VStr "Lisbon")]));
    vm_compute; reflexivity.
Defined.

Lemma out_of_range_scores_fail_validation_witness :
  (exists issues c,
      safeParse coworkingRecommendationSchema
        (VObj [("recommendations",
                 VArr [VObj [("name", VStr "Hub"); ("rank", VNum 7)]]);
               ("recommendationSummary", VStr "one venue")])
      = INVALID issues
      /\ In (mkIssue c [at_key "recommendations"; at_index 0; at_key "rank"])
           issues)
  /\ (exists issues c,
        safeParse communityRecommendationSchema
          (VObj [("recommendations",
                   VArr [VObj [("name", VStr "Meetup");
                               ("relevanceScore", VNum 0.5)]])])
        = INVALID issues
        /\ In (mkIssue c [at_key "recommendations"; at_index 0;
                          at_key "relevanceScore"]) issues).
Proof.
  split.
  - apply (proj1 out_of_range_scores_fail_validation _
             [VObj [("name", VStr "Hub"); ("rank", VNum 7)]] 0
             [("name", VStr "Hub"); ("rank", VNum 7)] 7%float);
      [reflexivity | reflexivity | reflexivity | right; reflexivity].
  - apply (proj2 out_of_range_scores_fail_validation _
             [VObj [("name", VStr "Meetup"); ("relevanceScore", VNum 0.5)]] 0
             [("name", VStr "Meetup"); ("relevanceScore", VNum 0.5)] 0.5%float);
      [reflexivity | reflexivity | reflexivity | left; reflexivity].
Defined.


(** * Further properties of the validator *)

(** *** Undeclared keys are not read *)

Lemma parse_pairs_reads_declared_keys parse_key fields fields' shape :
  (forall k, has_key k shape = true -> assoc k fields = assoc k fields') ->
  parse_pairs parse_key fields shape = parse_pairs parse_key fields' shape.
Proof.
  induction shape as [|[k kt] rest IH]; intros Hsame; [reflexivity|].
  rewrite !parse_pairs_cons.
  assert (Hk : assoc k fields = assoc k fields').
  { apply Hsame. rewrite has_key_cons, String.eqb_refl. reflexivity. }
  assert (Hrest : parse_pairs parse_key fields rest
                  = parse_pairs parse_key fields' rest).
  { apply IH. intros k' Hk'. apply Hsame.
    rewrite has_key_cons, Hk'. apply orb_true_r. }
  unfold field, keep_pair, has_key. now rewrite Hk, Hrest.
Qed.

(** X2: an object is validated through its declared keys alone. Two
    objects that hold the same value (or both nothing) at every key of the
    shape get the same result, whatever else they hold and in whatever
    order. *)
Theorem undeclared_keys_are_not_read shape fields fields' :
  (forall k, has_key k shape = true -> assoc k fields = assoc k fields') ->
  _parse (ZodObject shape) (VObj fields) = _parse (ZodObject shape) (VObj fields').
Proof.
  intros Hsame. simpl.
  now rewrite (parse_pairs_reads_declared_keys _parse fields fields' shape Hsame).
Qed.

(** X3: validation is idempotent on the seven schemas: a value that
    [safeParse] returned is accepted again and comes back unchanged. *)
Theorem validated_values_validate_again f v v' :
  safeParse (schema_of f) v = OK v' ->
  safeParse (schema_of f) v' = OK v'.
Proof.
  exact (parse_idempotent (schema_of f) (schemas_have_distinct_keys f) v v').
Qed.

(** X4: the keys of a validated object are the declared keys that the
    input holds: no key is invented (an absent optional key stays absent)
    and no undeclared key survives. *)
Theorem output_keys_are_the_declared_input_keys shape fields v' :
  _parse (ZodObject shape) (VObj fields) = OK v' ->
  exists out,
    v' = VObj out
    /\ forall k, has_key k out = has_key k shape && has_key k fields.
Proof.
  intros Hparse.
  destruct (parse_object_accepted shape fields v' Hparse) as [-> Hkeys].
  exists (snd (parse_pairs _parse fields shape)). split; [reflexivity|].
  intros k.
  destruct (has_key k (snd (parse_pairs _parse fields shape))) eqn:Hout.
  - apply has_key_assoc in Hout as [y Hy]. apply assoc_In in Hy.
    destruct (parse_pairs_kept _ _ _ _ _ Hy) as (kt & Hin & Hy' & Hkeep).
    rewrite (In_has_key k shape kt Hin). simpl.
    destruct (has_key k fields) eqn:Hk; [reflexivity|].
    rewrite (field_absent k fields Hk) in Hy'.
    specialize (Hkeep (parse_undefined_output kt y Hy')). discriminate.
  - destruct (has_key k shape) eqn:Hshape; [|reflexivity].
    destruct (has_key k fields) eqn:Hk; [|reflexivity].
    apply has_key_assoc in Hshape as [kt Hkt]. apply assoc_In in Hkt.
    destruct (Hkeys k kt Hkt) as [x Hx].
    rewrite (parse_pairs_has_key _parse fields shape k kt x Hkt Hx Hk) in Hout.
    discriminate.
Qed.

(** X5: validation never coerces. The validated value has the type of the
    input, and an input that is not an array or an object comes back as it
    is: the string ["3"] is not turned into a number, nor [null] into
    [undefined]. *)
Theorem validation_never_coerces t v v' :
  _parse t v = OK v' ->
  getParsedType v' = getParsedType v
  /\ match v with
     | VArr _ | VObj _ => True
     | _ => v' = v
     end.
Proof.
  revert v v'.
  induction t as [| | | |element _|shape|innerType IH]; intros v v' Hparse.
  - destruct v; try discriminate. injection Hparse as <-. auto.
  - destruct v as [| | |n| | |]; try discriminate. simpl in Hparse.
    destruct (PrimFloat.is_nan n); [discriminate|].
    apply finish_OK in Hparse as [_ ->]. auto.
  - destruct v; try discriminate. injection Hparse as <-. auto.
  - destruct v as [| | | |s| |]; try discriminate. simpl in Hparse.
    destruct (existsb (String.eqb s) values); [|discriminate].
    injection Hparse as <-. auto.
  - destruct v as [| | | | |items|]; try discriminate.
    destruct (parse_array_accepted element items v' Hparse) as (vs & -> & _).
    auto.
  - destruct v as [| | | | | |fields]; try discriminate.
    destruct (parse_object_accepted shape fields v' Hparse) as [-> _]. auto.
  - destruct v; simpl in Hparse; try exact (IH _ _ Hparse).
    injection Hparse as <-. auto.
Qed.

(** X6: an array is validated item by item: the validated array has the
    length of the input and holds, at each index, the validated value of
    the item at that index. *)
Theorem arrays_are_validated_item_by_item element items v' :
  _parse (ZodArray element) (VArr items) = OK v' ->
  exists vs,
    v' = VArr vs
    /\ List.length vs = List.length items
    /\ forall i x, nth_error items i = Some x ->
         exists y, nth_error vs i = Some y /\ _parse element x = OK y.
Proof.
  intros Hparse.
  destruct (parse_array_accepted element items v' Hparse) as (vs & -> & Hall).
  exists vs. split; [reflexivity|]. clear Hparse.
  induction Hall as [|x y xs ys Hxy _ [Hlen Hnth]].
  - split; [reflexivity|]. intros [|i] x; discriminate.
  - split; [simpl; now rewrite Hlen|].
    intros [|i] x0 Hx0; simpl in *.
    + injection Hx0 as <-. now exists y.
    + exact (Hnth i x0 Hx0).
Qed.

Lemma parse_null t :
  exists expected,
    _parse t VNull = INVALID [issue_here (invalid_type expected zt_null)].
Proof.
  induction t; simpl; try (eexists; reflexivity). assumption.
Qed.

(** X7: no schema of the fragment accepts [null], optional or not: an
    object that holds [null] at a declared key fails validation with an
    issue at that key that reports [null]. *)
Theorem null_at_a_declared_key_fails shape fields k kt :
  In (k, kt) shape ->
  assoc k fields = Some VNull ->
  exists expected issues,
    _parse (ZodObject shape) (VObj fields) = INVALID issues
    /\ In (mkIssue (invalid_type expected zt_null) [at_key k]) issues.
Proof.
  intros Hin Hnull. destruct (parse_null kt) as [expected Hparse].
  exists expected. apply issue_makes_invalid.
  refine (parse_object_issue shape fields k kt
            (issue_here (invalid_type expected zt_null)) Hin _).
  rewrite (field_assoc k fields VNull Hnull), Hparse. now left.
Qed.

(** Descending to a key of an object, or to an item of an array, with the
    issue expected there. *)
Ltac pick_key := simpl; repeat (first [left; reflexivity | right]).

Ltac under_key k issue :=
  match goal with
  | |- In _ (issues_of (_parse (ZodObject ?shape) (VObj ?fields))) =>
      refine (parse_object_issue shape fields k _ issue _ _); [pick_key|]
  end.

Ltac under_index i x issue :=
  match goal with
  | |- In _ (issues_of (_parse (ZodArray ?element) (VArr ?items))) =>
      refine (parse_array_issue element items i x issue _ _); [eassumption|]
  end.

Lemma parse_enum_outside values s :
  existsb (String.eqb s) values = false ->
  In (issue_here (invalid_enum_value s values))
     (issues_of (_parse (z.enum values) (VStr s))).
Proof. intros H. simpl. rewrite H. now left. Qed.

(** X8: a string outside an enumeration fails validation, with an issue at
    the field that names the string and the options: [impact] of a
    time-zone assessment, [status] of a budget comparison and
    [implementationDifficulty] of a budget recommendation. *)
Theorem strings_outside_an_enumeration_fail :
  (forall fields times i time entries j entry s,
      assoc "optimalMeetingTimes" fields = Some (VArr times) ->
      nth_error times i = Some (VObj time) ->
      assoc "impactAssessment" time = Some (VArr entries) ->
      nth_error entries j = Some (VObj entry) ->
      assoc "impact" entry = Some (VStr s) ->
      existsb (String.eqb s) ["Optimal"; "Acceptable"; "Challenging"] = false ->
      exists issues,
        safeParse timeZoneRecommendationSchema (VObj fields) = INVALID issues
        /\ In (mkIssue
                (invalid_enum_value s ["Optimal"; "Acceptable"; "Challenging"])
                [at_key "optimalMeetingTimes"; at_index i;
                 at_key "impactAssessment"; at_index j; at_key "impact"])
             issues)
  /\ (forall fields comparison s,
        assoc "comparisonToAverage" fields = Some (VObj comparison) ->
        assoc "status" comparison = Some (VStr s) ->
        existsb (String.eqb s) ["Above average"; "Below average"; "Average"]
          = false ->
        exists issues,
          safeParse budgetAnalysisSchema (VObj fields) = INVALID issues
          /\ In (mkIssue
                  (invalid_enum_value s
                     ["Above average"; "Below average"; "Average"])
                  [at_key "comparisonToAverage"; at_key "status"])
               issues)
  /\ (forall fields items i item s,
        assoc "recommendations" fields = Some (VArr items) ->
        nth_error items i = Some (VObj item) ->
        assoc "implementationDifficulty" item = Some (VStr s) ->
        existsb (String.eqb s) ["Easy"; "Medium"; "Hard"] = false ->
        exists issues,
          safeParse budgetAnalysisSchema (VObj fields) = INVALID issues
          /\ In (mkIssue (invalid_enum_value s ["Easy"; "Medium"; "Hard"])
                  [at_key "recommendations"; at_index i;
                   at_key "implementationDifficulty"])
               issues).
Proof.
  split; [|split].
  - intros fields times i time entries j entry s Htimes Hi Hentries Hj Himpact Hout.
    apply issue_makes_invalid.
    unfold safeParse, timeZoneRecommendationSchema, z.object, z.array.
    under_key "optimalMeetingTimes"
      (mkIssue (invalid_enum_value s ["Optimal"; "Acceptable"; "Challenging"])
         [at_index i; at_key "impactAssessment"; at_index j; at_key "impact"]).
    rewrite (field_assoc _ fields _ Htimes).
    under_index i (VObj time)
      (mkIssue (invalid_enum_value s ["Optimal"; "Acceptable"; "Challenging"])
         [at_key "impactAssessment"; at_index j; at_key "impact"]).
    under_key "impactAssessment"
      (mkIssue (invalid_enum_value s ["Optimal"; "Acceptable"; "Challenging"])
         [at_index j; at_key "impact"]).
    rewrite (field_assoc _ time _ Hentries).
    under_index j (VObj entry)
      (mkIssue (invalid_enum_value s ["Optimal"; "Acceptable"; "Challenging"])
         [at_key "impact"]).
    under_key "impact"
      (issue_here
         (invalid_enum_value s ["Optimal"; "Acceptable"; "Challenging"])).
    rewrite (field_assoc _ entry _ Himpact).
    exact (parse_enum_outside _ s Hout).
  - intros fields comparison s Hcomparison Hstatus Hout.
    apply issue_makes_invalid.
    unfold safeParse, budgetAnalysisSchema, z.object, z.array.
    under_key "comparisonToAverage"
      (mkIssue
         (invalid_enum_value s ["Above average"; "Below average"; "Average"])
         [at_key "status"]).
    rewrite (field_assoc _ fields _ Hcomparison).
    under_key "status"
      (issue_here
         (invalid_enum_value s ["Above average"; "Below average"; "Average"])).
    rewrite (field_assoc _ comparison _ Hstatus).
    exact (parse_enum_outside _ s Hout).
  - intros fields items i item s Hitems Hi Hdifficulty Hout.
    unfold safeParse, budgetAnalysisSchema, z.object, z.array.
    eapply (parse_listed_field_issue _ _ "recommendations"
              "implementationDifficulty" _ fields items i item (VStr s)
              (invalid_enum_value s ["Easy"; "Medium"; "Hard"]));
      [ do 2 right; left; reflexivity | do 2 right; left; reflexivity
      | exact Hitems | exact Hi | exact Hdifficulty
      | exact (parse_enum_outside _ s Hout) ].
Qed.

(** * Further properties of the Gateway and the operations *)

Section MoreGatewayProperties.

Variable JSON_parse : value -> option value.
Variable JSON_stringify : value -> nat -> option string.
Variable Number_toString : float -> string.
Variable w : World.

Lemma callGeminiAPI_without_key prompt context modelParams l :
  String.eqb (apiKey w) EmptyString = true ->
  callGeminiAPI JSON_parse JSON_stringify w prompt context modelParams l
  = (Throw (Error missing_key_message), l).
Proof. intros Hkey. unfold callGeminiAPI. now rewrite Hkey. Qed.

(** When the Gateway returns, a credential was there and the log gained the
    request and nothing else. *)
Lemma callGeminiAPI_return_log prompt context modelParams l v l' :
  callGeminiAPI JSON_parse JSON_stringify w prompt context modelParams l
    = (Return v, l') ->
  String.eqb (apiKey w) EmptyString = false
  /\ l' = sent (request JSON_stringify w prompt modelParams) l.
Proof.
  destruct (String.eqb (apiKey w) EmptyString) eqn:Hkey.
  - rewrite callGeminiAPI_without_key by exact Hkey. discriminate.
  - rewrite callGeminiAPI_with_key by exact Hkey. cbv zeta.
    destruct (remote w (network l) (request JSON_stringify w prompt modelParams))
      as [response|message]; [|discriminate].
    destruct (negb (ok response)); [discriminate|].
    destruct (json response) as [data|]; [|discriminate].
    destruct (get_named data "candidates") as [e|candidates]; [discriminate|].
    destruct (negb (truthy candidates) || length_is_0 candidates); [discriminate|].
    destruct (textContent_of candidates) as [e|textContent]; [discriminate|].
    intros [= _ <-]. auto.
Qed.

Lemma prompt_of_throws_TypeError f input e :
  prompt_of JSON_stringify Number_toString f input = inl e ->
  is_validation_error e = false.
Proof.
  unfold prompt_of, interpolated.
  destruct f; try discriminate.
  destruct (get_named input "question") as [e0|question] eqn:Hq; [|discriminate].
  intros [= <-]. exact (get_named_throws_TypeError _ _ _ Hq).
Qed.

Lemma skipn_length_self {A : Type} (a : list A) : skipn (List.length a) a = [].
Proof. induction a; simpl; auto. Qed.

(** X9: an operation never retries and never sends a second request. It
    sends the request of its prompt, once, when the prompt can be built and
    the credential is there, and nothing otherwise, whatever the service
    answers. *)
Theorem operations_send_at_most_one_request f input l :
  requests_of
    (operation JSON_parse JSON_stringify Number_toString w f input) l
  = match prompt_of JSON_stringify Number_toString f input with
    | inr prompt =>
        if String.eqb (apiKey w) EmptyString then []
        else [request JSON_stringify w prompt []]
    | inl _ => []
    end.
Proof.
  destruct (prompt_of JSON_stringify Number_toString f input)
    as [e|prompt] eqn:Hprompt.
  - unfold requests_of. rewrite operation_run, Hprompt. simpl.
    apply skipn_length_self.
  - destruct (String.eqb (apiKey w) EmptyString) eqn:Hkey.
    + unfold requests_of.
      rewrite operation_run, Hprompt, callGeminiAPI_without_key by exact Hkey.
      simpl. apply skipn_length_self.
    + exact (operation_sends_its_prompt JSON_parse JSON_stringify
               Number_toString w f input prompt l Hprompt Hkey).
Qed.

(** X10: whatever the Gateway throws from inside its [try] it has printed
    with [console.error], once, before throwing it again; the missing-key
    error, thrown before the [try], is not printed; a call that returns
    prints nothing. *)
Theorem failures_are_printed_except_the_missing_key
  prompt context modelParams l :
  console (snd (callGeminiAPI JSON_parse JSON_stringify w prompt context
                  modelParams l))
  = match fst (callGeminiAPI JSON_parse JSON_stringify w prompt context
                 modelParams l) with
    | Throw e =>
        if String.eqb (apiKey w) EmptyString then console l
        else console l ++ [e]
    | Return _ => console l
    end.
Proof.
  destruct (String.eqb (apiKey w) EmptyString) eqn:Hkey.
  - now rewrite callGeminiAPI_without_key by exact Hkey.
  - rewrite callGeminiAPI_with_key by exact Hkey. cbv zeta.
    destruct (remote w (network l) (request JSON_stringify w prompt modelParams))
      as [response|message]; [|reflexivity].
    destruct (negb (ok response)); [reflexivity|].
    destruct (json response) as [data|]; [|reflexivity].
    destruct (get_named data "candidates") as [e|candidates]; [reflexivity|].
    destruct (negb (truthy candidates) || length_is_0 candidates); [reflexivity|].
    destruct (textContent_of candidates); reflexivity.
Qed.

(** X11: a [ZodError] out of an operation means that the service answered:
    the prompt was built, the Gateway sent its one request and returned a
    value, and that value failed the schema with these issues. The
    validation error is not printed with [console.error]. *)
Theorem ZodError_means_the_service_answered f input l issues l' :
  operation JSON_parse JSON_stringify Number_toString w f input l
    = (Throw (ZodError issues), l') ->
  exists prompt result,
    prompt_of JSON_stringify Number_toString f input = inr prompt
    /\ callGeminiAPI JSON_parse JSON_stringify w prompt [] [] l
       = (Return result, l')
    /\ safeParse (schema_of f) result = INVALID issues
    /\ l' = sent (request JSON_stringify w prompt []) l.
Proof.
  rewrite operation_run.
  destruct (prompt_of JSON_stringify Number_toString f input)
    as [e|prompt] eqn:Hprompt.
  - intros [= -> _].
    pose proof (prompt_of_throws_TypeError f input _ Hprompt). discriminate.
  - destruct (callGeminiAPI JSON_parse JSON_stringify w prompt [] [] l)
      as [[result|e] l1] eqn:Hcall.
    + unfold parse.
      destruct (safeParse (schema_of f) result) as [output|issues0] eqn:Hparse;
        [discriminate|].
      intros [= -> ->]. exists prompt, result.
      destruct (callGeminiAPI_return_log _ _ _ _ _ _ Hcall) as [_ Hlog].
      auto.
    + intros [= -> _].
      pose proof (callGeminiAPI_never_throws_ZodError JSON_parse JSON_stringify
                    w prompt [] [] l _ _ Hcall).
      discriminate.
Qed.

(** X12: what an operation returns has passed its schema: it conforms to
    the schema, holds declared keys only, and validates to itself. The raw
    text fallback and unvalidated data never reach the caller. *)
Theorem operations_return_validated_values f input l v l' :
  operation JSON_parse JSON_stringify Number_toString w f input l
    = (Return v, l') ->
  conforms (schema_of f) v = true
  /\ only_declared (schema_of f) v = true
  /\ safeParse (schema_of f) v = OK v.
Proof.
  rewrite operation_run.
  destruct (prompt_of JSON_stringify Number_toString f input) as [e|prompt];
    [discriminate|].
  destruct (callGeminiAPI JSON_parse JSON_stringify w prompt [] [] l)
    as [[result|e] l1]; [|discriminate].
  unfold parse.
  destruct (safeParse (schema_of f) result) as [output|issues] eqn:Hparse;
    [|discriminate].
  intros [= -> _].
  pose proof (parse_idempotent (schema_of f) (schemas_have_distinct_keys f)
                result v Hparse) as Hagain.
  pose proof (accepted_conforms (schema_of f) v v Hagain) as Hconf.
  destruct (parse_conforming (schema_of f) (schemas_have_distinct_keys f) v Hconf)
    as (v' & Hv' & Hdecl & _).
  unfold safeParse. rewrite Hagain in Hv'. injection Hv' as <-.
  auto.
Qed.

(** X13: a response whose status is not a success makes the Gateway throw
    an [Error] that carries the status code and the raw body; the body is
    not read as JSON. *)
Theorem http_failure_throws_status_and_body
  prompt context modelParams l response :
  String.eqb (apiKey w) EmptyString = false ->
  remote w (network l) (request JSON_stringify w prompt modelParams)
    = Resolved response ->
  ok response = false ->
  callGeminiAPI JSON_parse JSON_stringify w prompt context modelParams l
  = (Throw (Error ("Gemini API error: " ++ decimal (status response)
                     ++ " - " ++ text response)),
     printed (Error ("Gemini API error: " ++ decimal (status response)
                       ++ " - " ++ text response))
       (sent (request JSON_stringify w prompt modelParams) l)).
Proof.
  intros Hkey Hremote Hok.
  rewrite callGeminiAPI_with_key by exact Hkey.
  cbv zeta. now rewrite Hremote, Hok.
Qed.

(** X14: when [fetch] rejects, the Gateway throws the rejection itself,
    after one request and no other attempt. *)
Theorem network_failure_propagates prompt context modelParams l message :
  String.eqb (apiKey w) EmptyString = false ->
  remote w (network l) (request JSON_stringify w prompt modelParams)
    = Rejected message ->
  callGeminiAPI JSON_parse JSON_stringify w prompt context modelParams l
  = (Throw (TypeError message),
     printed (TypeError message)
       (sent (request JSON_stringify w prompt modelParams) l)).
Proof.
  intros Hkey Hremote.
  rewrite callGeminiAPI_with_key by exact Hkey.
  cbv zeta. now rewrite Hremote.
Qed.

(** X15: of a response of the documented shape the Gateway reads the text
    of the first part of the first candidate and nothing else: it returns
    the value that text parses to (or the text wrapped), whatever the other
    candidates and the other parts hold. *)
Theorem only_the_first_part_of_the_first_candidate_is_read
  prompt context modelParams l response fields candidate others content
  part more textContent :
  String.eqb (apiKey w) EmptyString = false ->
  remote w (network l) (request JSON_stringify w prompt modelParams)
    = Resolved response ->
  ok response = true ->
  json response = Some (VObj fields) ->
  assoc "candidates" fields = Some (VArr (VObj candidate :: others)) ->
  assoc "content" candidate = Some (VObj content) ->
  assoc "parts" content = Some (VArr (VObj part :: more)) ->
  assoc "text" part = Some textContent ->
  callGeminiAPI JSON_parse JSON_stringify w prompt context modelParams l
  = (Return (match JSON_parse textContent with
             | Some parsed => parsed
             | None => VObj [("rawResponse", textContent)]
             end),
     sent (request JSON_stringify w prompt modelParams) l).
Proof.
  intros Hkey Hremote Hok Hjson Hcandidates Hcontent Hparts Htext.
  rewrite callGeminiAPI_with_key by exact Hkey.
  cbv zeta. rewrite Hremote, Hok, Hjson. simpl.
  unfold field. rewrite Hcandidates. simpl.
  unfold textContent_of. simpl.
  unfold field. rewrite Hcontent. simpl.
  unfold field. rewrite Hparts. simpl.
  unfold field. now rewrite Htext.
Qed.

(** X16: a first candidate without [content] (a blocked answer) does not
    give the error of an empty answer: reading [parts] of [undefined]
    throws a [TypeError], which the Gateway prints and throws again. *)
Theorem candidate_without_content_throws_TypeError
  prompt context modelParams l response fields candidate others :
  String.eqb (apiKey w) EmptyString = false ->
  remote w (network l) (request JSON_stringify w prompt modelParams)
    = Resolved response ->
  ok response = true ->
  json response = Some (VObj fields) ->
  assoc "candidates" fields = Some (VArr (VObj candidate :: others)) ->
  assoc "content" candidate = None ->
  callGeminiAPI JSON_parse JSON_stringify w prompt context modelParams l
  = (Throw (cannot_read "undefined" "parts"),
     printed (cannot_read "undefined" "parts")
       (sent (request JSON_stringify w prompt modelParams) l)).
Proof.
  intros Hkey Hremote Hok Hjson Hcandidates Hcontent.
  rewrite callGeminiAPI_with_key by exact Hkey.
  cbv zeta. rewrite Hremote, Hok, Hjson. simpl.
  unfold field. rewrite Hcandidates. simpl.
  unfold textContent_of. simpl.
  unfold field. now rewrite Hcontent.
Qed.

(** X17: when the Gateway returns valid JSON that is not an object (an
    array, a string, a number, a boolean, [null]), every operation throws a
    [ZodError] whose single issue, at the root, expects an object. *)
Theorem non_object_answers_are_rejected f input prompt l result l' :
  prompt_of JSON_stringify Number_toString f input = inr prompt ->
  callGeminiAPI JSON_parse JSON_stringify w prompt [] [] l = (Return result, l') ->
  match result with VObj _ => False | _ => True end ->
  operation JSON_parse JSON_stringify Number_toString w f input l
  = (Throw (ZodError [mkIssue (invalid_type "object" (getParsedType result)) []]),
     l').
Proof.
  intros Hprompt Hcall Hshape.
  rewrite operation_run, Hprompt, Hcall. unfold parse, safeParse.
  destruct result; try (now destruct f); destruct Hshape.
Qed.

(** X18: without a credential an operation leaves the log as it found it
    and throws the missing-key error; but when its prompt cannot be built
    ([getLegalResources] on [null] or [undefined]) it throws that
    [TypeError] first. *)
Theorem operations_without_credential f input l :
  GEMINI_API_KEY w = None \/ GEMINI_API_KEY w = Some EmptyString ->
  operation JSON_parse JSON_stringify Number_toString w f input l
  = (Throw (match prompt_of JSON_stringify Number_toString f input with
            | inl e => e
            | inr _ => Error missing_key_message
            end), l).
Proof.
  intros Hkey. rewrite operation_run.
  destruct (prompt_of JSON_stringify Number_toString f input) as [e|prompt];
    [reflexivity|].
  rewrite callGeminiAPI_without_key; [reflexivity|].
  unfold apiKey. now destruct Hkey as [-> | ->].
Qed.

End MoreGatewayProperties.

(** ** The further properties at work on the reference runtime *)

Lemma undeclared_keys_are_not_read_witness :
  _parse assistantResponseSchema
    (VObj [("response", VStr "Lisbon"); ("mood", VStr "calm")])
  = _parse assistantResponseSchema
      (VObj [("note", VNum 1); ("response", VStr "Lisbon")]).
Proof.
  unfold assistantResponseSchema, z.object.
  apply (undeclared_keys_are_not_read _
           [("response", VStr "Lisbon"); ("mood", VStr "calm")]
           [("note", VNum 1); ("response", VStr "Lisbon")]).
  intros k Hk. unfold has_key in Hk. simpl in Hk.
  destruct (String.eqb k "response") eqn:E1;
    [apply String.eqb_eq in E1; subst; reflexivity|].
  destruct (String.eqb k "relatedModules") eqn:E2;
    [apply String.eqb_eq in E2; subst; reflexivity|].
  destruct (String.eqb k "suggestedActions") eqn:E3;
    [apply String.eqb_eq in E3; subst; reflexivity|].
  discriminate.
Defined.

Lemma validated_values_validate_again_witness :
  safeParse (schema_of AssistantResponse) (VObj [("response", VStr "Lisbon")])
  = OK (VObj [("response", VStr "Lisbon")]).
Proof.
  apply (validated_values_validate_again AssistantResponse
           (VObj [("response", VStr "Lisbon"); ("mood", VStr "calm")])
           (VObj [("response", VStr "Lisbon")])).
  reflexivity.
Defined.

Lemma output_keys_are_the_declared_input_keys_witness :
  exists out,
    VObj [("response", VStr "Lisbon")] = VObj out
    /\ forall k,
         has_key k out
         = has_key k [("response", z.string);
                      ("relatedModules", z.optional (z.array z.string));
                      ("suggestedActions", z.optional (z.array z.string))]
           && has_key k [("response", VStr "Lisbon"); ("mood", VStr "calm")].
Proof.
  apply (output_keys_are_the_declared_input_keys
           [("response", z.string);
            ("relatedModules", z.optional (z.array z.string));
            ("suggestedActions", z.optional (z.array z.string))]
           [("response", VStr "Lisbon"); ("mood", VStr "calm")]
           (VObj [("response", VStr "Lisbon")])).
  reflexivity.
Defined.

Lemma validation_never_coerces_witness :
  getParsedType (VStr "3") = getParsedType (VStr "3") /\ VStr "3" = VStr "3".
Proof.
  apply (validation_never_coerces z.string (VStr "3") (VStr "3")).
  reflexivity.
Defined.

Lemma arrays_are_validated_item_by_item_witness :
  exists vs,
    VArr [VStr "wifi"; VStr "coffee"] = VArr vs
    /\ List.length vs = List.length [VStr "wifi"; VStr "coffee"]
    /\ forall i x, nth_error [VStr "wifi"; VStr "coffee"] i = Some x ->
         exists y, nth_error vs i = Some y /\ _parse z.string x = OK y.
Proof.
  apply (arrays_are_validated_item_by_item z.string
           [VStr "wifi"; VStr "coffee"] (VArr [VStr "wifi"; VStr "coffee"])).
  reflexivity.
Defined.

Lemma null_at_a_declared_key_fails_witness :
  exists expected issues,
    _parse conflictAnalysisSchema
      (VObj [("hasConflict", VBool false); ("conflictDetails", VNull)])
    = INVALID issues
    /\ In (mkIssue (invalid_type expected zt_null) [at_key "conflictDetails"])
         issues.
Proof.
  unfold conflictAnalysisSchema, z.object.
  apply (null_at_a_declared_key_fails _
           [("hasConflict", VBool false); ("conflictDetails", VNull)]
           "conflictDetails" (z.optional z.string));
    [right; left; reflexivity | reflexivity].
Defined.

Lemma strings_outside_an_enumeration_fail_witness :
  (exists issues,
      safeParse timeZoneRecommendationSchema
        (VObj [("optimalMeetingTimes",
                 VArr [VObj [("impactAssessment",
                               VArr [VObj [("impact", VStr "Bad")]])]])])
      = INVALID issues
      /\ In (mkIssue
              (invalid_enum_value "Bad" ["Optimal"; "Acceptable"; "Challenging"])
              [at_key "optimalMeetingTimes"; at_index 0;
               at_key "impactAssessment"; at_index 0; at_key "impact"])
           issues)
  /\ (exists issues,
        safeParse budgetAnalysisSchema
          (VObj [("comparisonToAverage", VObj [("status", VStr "average")])])
        = INVALID issues
        /\ In (mkIssue
                (invalid_enum_value "average"
                   ["Above average"; "Below average"; "Average"])
                [at_key "comparisonToAverage"; at_key "status"])
             issues)
  /\ (exists issues,
        safeParse budgetAnalysisSchema
          (VObj [("recommendations",
                   VArr [VObj [("implementationDifficulty", VStr "Trivial")]])])
        = INVALID issues
        /\ In (mkIssue (invalid_enum_value "Trivial" ["Easy"; "Medium"; "Hard"])
                [at_key "recommendations"; at_index 0;
                 at_key "implementationDifficulty"])
             issues).
Proof.
  split; [|split].
  - apply (proj1 strings_outside_an_enumeration_fail _
             [VObj [("impactAssessment", VArr [VObj [("impact", VStr "Bad")]])]]
             0 [("impactAssessment", VArr [VObj [("impact", VStr "Bad")]])]
             [VObj [("impact", VStr "Bad")]] 0 [("impact", VStr "Bad")] "Bad");
      reflexivity.
  - apply (proj1 (proj2 strings_outside_an_enumeration_fail) _
             [("status", VStr "average")] "average");
      reflexivity.
  - apply (proj2 (proj2 strings_outside_an_enumeration_fail) _
             [VObj [("implementationDifficulty", VStr "Trivial")]] 0
             [("implementationDifficulty", VStr "Trivial")] "Trivial");
      reflexivity.
Defined.

Lemma ZodError_means_the_service_answered_witness :
  exists prompt result,
    prompt_of reference_JSON_stringify reference_Number_toString
      AssistantResponse (VStr "Where next?") = inr prompt
    /\ callGeminiAPI reference_JSON_parse reference_JSON_stringify
         (service (reply (VStr "{}"))) prompt [] [] empty_log
       = (Return result,
          sent (request reference_JSON_stringify (service (reply (VStr "{}")))
                  (getAssistantResponse_prompt_head ++ "Where next?"
                     ++ getAssistantResponse_prompt_tail) []) empty_log)
    /\ safeParse (schema_of AssistantResponse) result
       = INVALID [mkIssue (invalid_type "string" zt_undefined)
                    [at_key "response"]]
    /\ sent (request reference_JSON_stringify (service (reply (VStr "{}")))
               (getAssistantResponse_prompt_head ++ "Where next?"
                  ++ getAssistantResponse_prompt_tail) []) empty_log
       = sent (request reference_JSON_stringify (service (reply (VStr "{}")))
                 prompt []) empty_log.
Proof.
  apply (ZodError_means_the_service_answered reference_JSON_parse
           reference_JSON_stringify reference_Number_toString
           (service (reply (VStr "{}"))) AssistantResponse (VStr "Where next?")
           empty_log).
  vm_compute. reflexivity.
Defined.

Lemma operations_return_validated_values_witness :
  conforms (schema_of AssistantResponse) (VObj [("response", VStr "Lisbon")])
    = true
  /\ only_declared (schema_of AssistantResponse)
       (VObj [("response", VStr "Lisbon")]) = true
  /\ safeParse (schema_of AssistantResponse)
       (VObj [("response", VStr "Lisbon")])
     = OK (VObj [("response", VStr "Lisbon")]).
Proof.
  apply (operations_return_validated_values reference_JSON_parse
           reference_JSON_stringify reference_Number_toString
           (service (reply (VStr answer_with_mood))) AssistantResponse
           (VStr "Where next?") empty_log
           (VObj [("response", VStr "Lisbon")])
           (sent (request reference_JSON_stringify
                    (service (reply (VStr answer_with_mood)))
                    (getAssistantResponse_prompt_head ++ "Where next?"
                       ++ getAssistantResponse_prompt_tail) []) empty_log)).
  vm_compute. reflexivity.
Defined.

Lemma http_failure_throws_status_and_body_witness :
  callGeminiAPI reference_JSON_parse reference_JSON_stringify
    (service (mkResponse false 503 "Service Unavailable" None))
    "Plan my week" [] [] empty_log
  = (Throw (Error "Gemini API error: 503 - Service Unavailable"),
     printed (Error "Gemini API error: 503 - Service Unavailable")
       (sent (request reference_JSON_stringify
                (service (mkResponse false 503 "Service Unavailable" None))
                "Plan my week" []) empty_log)).
Proof.
  apply (http_failure_throws_status_and_body reference_JSON_parse
           reference_JSON_stringify
           (service (mkResponse false 503 "Service Unavailable" None))
           "Plan my week" [] [] empty_log
           (mkResponse false 503 "Service Unavailable" None));
    reflexivity.
Defined.

Lemma network_failure_propagates_witness :
  callGeminiAPI reference_JSON_parse reference_JSON_stringify
    (mkWorld (Some "test-key") (fun _ _ => Rejected "fetch failed"))
    "Plan my week" [] [] empty_log
  = (Throw (TypeError "fetch failed"),
     printed (TypeError "fetch failed")
       (sent (request reference_JSON_stringify
                (mkWorld (Some "test-key") (fun _ _ => Rejected "fetch failed"))
                "Plan my week" []) empty_log)).
Proof.
  apply (network_failure_propagates reference_JSON_parse
           reference_JSON_stringify
           (mkWorld (Some "test-key") (fun _ _ => Rejected "fetch failed"))
           "Plan my week" [] [] empty_log "fetch failed");
    reflexivity.
Defined.

(** A body with two candidates, the first of two parts, and a body whose
    only candidate has no content. *)
Definition two_candidates : list (string * value) :=
  [("candidates",
     VArr [VObj [("content",
                   VObj [("parts", VArr [VObj [("text", VStr "true")];
                                         VObj [("text", VStr "false")]])])];
           VObj [("content", VNull)]])].

Definition blocked_candidate : list (string * value) :=
  [("candidates", VArr [VObj [("finishReason", VStr "SAFETY")]])].

Lemma only_the_first_part_of_the_first_candidate_is_read_witness :
  callGeminiAPI reference_JSON_parse reference_JSON_stringify
    (service (mkResponse true 200 EmptyString (Some (VObj two_candidates))))
    "Plan my week" [] [] empty_log
  = (Return (VBool true),
     sent (request reference_JSON_stringify
             (service (mkResponse true 200 EmptyString
                         (Some (VObj two_candidates))))
             "Plan my week" []) empty_log).
Proof.
  apply (only_the_first_part_of_the_first_candidate_is_read
           reference_JSON_parse reference_JSON_stringify
           (service (mkResponse true 200 EmptyString
                       (Some (VObj two_candidates))))
           "Plan my week" [] [] empty_log
           (mkResponse true 200 EmptyString (Some (VObj two_candidates)))
           two_candidates
           [("content",
              VObj [("parts", VArr [VObj [("text", VStr "true")];
                                    VObj [("text", VStr "false")]])])]
           [VObj [("content", VNull)]]
           [("parts", VArr [VObj [("text", VStr "true")];
                            VObj [("text", VStr "false")]])]
           [("text", VStr "true")]
           [VObj [("text", VStr "false")]]
           (VStr "true"));
    reflexivity.
Defined.

Lemma candidate_without_content_throws_TypeError_witness :
  callGeminiAPI reference_JSON_parse reference_JSON_stringify
    (service (mkResponse true 200 EmptyString (Some (VObj blocked_candidate))))
    "Plan my week" [] [] empty_log
  = (Throw (cannot_read "undefined" "parts"),
     printed (cannot_read "undefined" "parts")
       (sent (request reference_JSON_stringify
                (service (mkResponse true 200 EmptyString
                            (Some (VObj blocked_candidate))))
                "Plan my week" []) empty_log)).
Proof.
  apply (candidate_without_content_throws_TypeError reference_JSON_parse
           reference_JSON_stringify
           (service (mkResponse true 200 EmptyString
                       (Some (VObj blocked_candidate))))
           "Plan my week" [] [] empty_log
           (mkResponse true 200 EmptyString (Some (VObj blocked_candidate)))
           blocked_candidate
           [("finishReason", VStr "SAFETY")] []);
    reflexivity.
Defined.

Lemma non_object_answers_are_rejected_witness :
  operation reference_JSON_parse reference_JSON_stringify
    reference_Number_toString (service (reply (VStr "[]")))
    AssistantResponse (VStr "Where next?") empty_log
  = (Throw (ZodError [mkIssue (invalid_type "object" zt_array) []]),
     sent (request reference_JSON_stringify (service (reply (VStr "[]")))
             (getAssistantResponse_prompt_head ++ "Where next?"
                ++ getAssistantResponse_prompt_tail) []) empty_log).
Proof.
  apply (non_object_answers_are_rejected reference_JSON_parse
           reference_JSON_stringify reference_Number_toString
           (service (reply (VStr "[]"))) AssistantResponse (VStr "Where next?")
           (getAssistantResponse_prompt_head ++ "Where next?"
              ++ getAssistantResponse_prompt_tail)
           empty_log (VArr []));
    [reflexivity | vm_compute; reflexivity | exact I].
Defined.

Lemma operations_without_credential_witness :
  operation reference_JSON_parse reference_JSON_stringify
    reference_Number_toString unconfigured LegalResource VNull empty_log
  = (Throw (cannot_read "null" "question"), empty_log)
  /\ operation reference_JSON_parse reference_JSON_stringify
       reference_Number_toString unconfigured AssistantResponse
       (VStr "Where next?") empty_log
     = (Throw (Error missing_key_message), empty_log).
Proof.
  split.
  - exact (operations_without_credential reference_JSON_parse
             reference_JSON_stringify reference_Number_toString unconfigured
             LegalResource VNull empty_log (or_introl eq_refl)).
  - exact (operations_without_credential reference_JSON_parse
             reference_JSON_stringify reference_Number_toString unconfigured
             AssistantResponse (VStr "Where next?") empty_log
             (or_introl eq_refl)).
Defined.

(** * The schemas as contracts, and the operations on conforming answers *)

(** X19: a value passes the schema of a feature exactly when it conforms to
    it: every declared field has its declared type, enumeration or bounds,
    and is present unless optional; what else the value holds plays no
    part. *)
Theorem accepted_exactly_when_conforming f v :
  (exists v', safeParse (schema_of f) v = OK v')
  <-> conforms (schema_of f) v = true.
Proof.
  split.
  - intros [v' Hparse]. exact (accepted_conforms (schema_of f) v v' Hparse).
  - intros Hconf.
    destruct (parse_conforming (schema_of f) (schemas_have_distinct_keys f) v Hconf)
      as (v' & Hparse & _).
    now exists v'.
Qed.

Section OperationsOnConformingAnswers.

Variable JSON_parse : value -> option value.
Variable JSON_stringify : value -> nat -> option string.
Variable Number_toString : float -> string.
Variable w : World.

(** X20: when the service answers with a text that parses to a value
    conforming to the schema of the feature, the operation returns, after
    its one request and with nothing printed, the validated value: the
    parsed value restricted to the declared keys, that is, a value with
    declared keys only that is deep-equal to the parsed value without its
    undeclared keys. *)
Theorem operations_succeed_on_conforming_answers
  f input prompt l response data textContent v :
  prompt_of JSON_stringify Number_toString f input = inr prompt ->
  String.eqb (apiKey w) EmptyString = false ->
  remote w (network l) (request JSON_stringify w prompt []) = Resolved response ->
  ok response = true ->
  json response = Some data ->
  extracted_text data = Some textContent ->
  JSON_parse textContent = Some v ->
  objects_distinct v = true ->
  conforms (schema_of f) v = true ->
  exists v',
    operation JSON_parse JSON_stringify Number_toString w f input l
      = (Return v', sent (request JSON_stringify w prompt []) l)
    /\ safeParse (schema_of f) v = OK v'
    /\ only_declared (schema_of f) v' = true
    /\ same_value (strip (schema_of f) v) v' = true.
Proof.
  intros Hprompt Hkey Hremote Hok Hjson Htext Hparse Hdist Hconf.
  destruct (parse_conforming (schema_of f) (schemas_have_distinct_keys f) v Hconf)
    as (v' & Hvalid & Hdecl & _).
  exists v'. split; [|split; [exact Hvalid|split; [exact Hdecl|]]].
  - rewrite operation_run, Hprompt.
    rewrite (callGeminiAPI_returns JSON_parse JSON_stringify w prompt [] [] l
               response data textContent Hkey Hremote Hok Hjson Htext).
    unfold parse_or_raw. rewrite Hparse.
    unfold parse, safeParse. now rewrite Hvalid.
  - exact (parse_strips (schema_of f) (schemas_have_distinct_keys f) v v'
             Hdist Hvalid).
Qed.

End OperationsOnConformingAnswers.

Lemma operations_succeed_on_conforming_answers_witness :
  exists v',
    operation reference_JSON_parse reference_JSON_stringify
      reference_Number_toString (service (reply (VStr answer_with_mood)))
      AssistantResponse (VStr "Where next?") empty_log
    = (Return v',
       sent (request reference_JSON_stringify
               (service (reply (VStr answer_with_mood)))
               (getAssistantResponse_prompt_head ++ "Where next?"
                  ++ getAssistantResponse_prompt_tail) []) empty_log)
    /\ safeParse (schema_of AssistantResponse)
         (VObj [("response", VStr "Lisbon"); ("mood", VStr "calm")]) = OK v'
    /\ only_declared (schema_of AssistantResponse) v' = true
    /\ same_value
         (strip (schema_of AssistantResponse)
            (VObj [("response", VStr "Lisbon"); ("mood", VStr "calm")])) v'
       = true.
Proof.
  apply (operations_succeed_on_conforming_answers reference_JSON_parse
           reference_JSON_stringify reference_Number_toString
           (service (reply (VStr answer_with_mood)))
           AssistantResponse (VStr "Where next?")
           (getAssistantResponse_prompt_head ++ "Where next?"
              ++ getAssistantResponse_prompt_tail)
           empty_log (reply (VStr answer_with_mood))
           (VObj [("candidates",
                    VArr [VObj [("content",
                                  VObj [("parts",
                                          VArr [VObj [("text",
                                            VStr answer_with_mood)]])])]])])
           (VStr answer_with_mood)
           (VObj [("response", VStr "Lisbon"); ("mood", VStr "calm")]));
    vm_compute; reflexivity.
Defined.
